(** * A model of the voice-call session layer of [server/lib/call.js]

    The file embeds the two classes of [call.js], [WebCall] (the frame
    protocol over one websocket) and [CallConversation] (the turn taking,
    the history and the call log), as state-passing programs over an
    explicit session state, and proves properties of them. *)

From Stdlib Require Import ZArith List String Lia DecimalString.
From Stdlib.Strings Require Import Byte.
From stdpp Require Import base list gmap strings.

Local Open Scope string_scope.
Local Open Scope list_scope.
Local Open Scope nat_scope.

(** ** Audio buffers *)

(** A sample is the 32-bit pattern of one [Float32Array] element.  The code
    only copies samples, so the float value behind the bits never matters. *)
Abbreviation sample := Z.
Abbreviation chunk := (list Z).

(** The literal [1024] of [pushAudio] and of [_handleWebsocket_Meta]. *)
Definition CHUNK : nat := 1024.

Definition le_word (b0 b1 b2 b3 : byte) : sample :=
  (Z.of_N (Byte.to_N b0)
   + Z.shiftl (Z.of_N (Byte.to_N b1)) 8
   + Z.shiftl (Z.of_N (Byte.to_N b2)) 16
   + Z.shiftl (Z.of_N (Byte.to_N b3)) 24)%Z.

Fixpoint float32_words (bs : list byte) : list sample :=
  match bs with
  | b0 :: b1 :: b2 :: b3 :: rest => le_word b0 b1 b2 b3 :: float32_words rest
  | _ => []
  end.

(** [new Float32Array(arrayBuffer)]: a view of the buffer, one element per
    four bytes; a [RangeError] ([None]) when the byte length is not a
    multiple of four. *)
Definition Float32Array_of_buffer (bs : list byte) : option chunk :=
  if (length bs mod 4 =? 0)%nat then Some (float32_words bs) else None.

(** [new Float32Array(n)]: [n] elements, all [+0]. *)
Definition Float32Array_zeros (n : nat) : list sample := replicate n 0%Z.

(** [target.set(src, offset)]: a [RangeError] ([None]) when the source does
    not fit, otherwise the elements from [offset] on are overwritten. *)
Definition Float32Array_set (target src : list sample) (offset : nat)
  : option (list sample) :=
  if (offset + length src <=? length target)%nat
  then Some (take offset target ++ src ++ drop (offset + length src) target)
  else None.

(** The loop [for (let i = 0; i < data.length; i++)
    combinedAudio.set(data[i], i * 1024)], entered at index [i]. *)
Fixpoint copy_chunks (data : list chunk) (i : nat) (combined : list sample)
  : option (list sample) :=
  match data with
  | [] => Some combined
  | c :: rest =>
      match Float32Array_set combined c (i * CHUNK) with
      | Some combined' => copy_chunks rest (S i) combined'
      | None => None
      end
  end.

(** The body of the transcription closure up to the [transcribe] call. *)
Definition combineAudio (data : list chunk) : option (list sample) :=
  copy_chunks data 0 (Float32Array_zeros (length data * CHUNK)).

(** [audio.slice(i, i + 1024)]. *)
Definition slice (audio : list sample) (i j : nat) : list sample :=
  take (j - i) (drop i audio).

(** The loop of [pushAudio]: [for (let i = 0; i < audio.length; i += 1024)
    send(audio.slice(i, i + 1024))], entered at index [i]; the result is the
    list of frames sent.  [fuel] bounds the number of iterations. *)
Fixpoint pushAudio_loop (fuel : nat) (audio : list sample) (i : nat)
  : list (list sample) :=
  match fuel with
  | O => []
  | S fuel' =>
      if (i <? length audio)%nat
      then slice audio i (i + CHUNK) :: pushAudio_loop fuel' audio (i + CHUNK)
      else []
  end.

(** As every iteration advances [i] by 1024, [length audio] iterations are
    always enough (see [pushAudio_loop_fuel]). *)
Definition pushAudio_frames (audio : list sample) : list (list sample) :=
  pushAudio_loop (length audio) audio 0.

(** ** Values, log entries and the world outside the module *)

(** Locations of the JavaScript arrays that the session shares by
    reference. *)
Definition loc := nat.

(** A value that is a string or [undefined] ([None]). *)
Definition truthy (v : option string) : bool :=
  match v with
  | Some s => negb (String.eqb s "")
  | None => false
  end.

(** Interpolation [`${v}`] in a template literal. *)
Definition to_str (v : option string) : string :=
  match v with
  | Some s => s
  | None => "undefined"
  end.

Definition show_Z (z : Z) : string := NilZero.string_of_int (Z.to_int z).

(** An element of [history]: [{ role, content }]. *)
Record Turn := { role : string; content : option string }.

(** The [meta] payload of a log entry. *)
Inductive Meta :=
| MetaUndefined
| MetaAssistant (assistant_json : string)
| MetaTranscript (speaker : string) (message : option string)
| MetaTool (tool : option string).

(** An element of [callLog]: [{ timestamp, event, meta }]. *)
Record LogEntry := { timestamp : string; event : string; meta : Meta }.

(** The fields of the assistant object that [call.js] reads. *)
Record Assistant := {
  prompt : loc;
  speakFirst : bool;
  speakFirstOpeningMessage : option string
}.

(** What [call.js] takes from outside: the clock behind [new Date()] (the
    value of the n-th call, in milliseconds), [Date.prototype.toISOString],
    [generateBeep(frequency, 0.5, 24000)] of [./audio] and
    [JSON.stringify] of the assistant. *)
Record World := {
  clock : nat -> Z;
  toISOString : Z -> string;
  generateBeep : Z -> list sample;
  JSON_stringify : Assistant -> list Turn -> string
}.

(** What is handed to [ws.send]. *)
Inductive Frame :=
| TextFrame (text : string)
| AudioFrame (samples : list sample).

(** The calls that leave the module, in the order they are made. *)
Inductive Effect :=
| WsSend (f : Frame)
| WsClose
| SttTranscribe (audio : list sample)
| SttDestroy
| CreateResponse (arg : loc) (contents : list Turn)
| TextToSpeech (text : option string)
| Emit (name : string) (arg : option string)
| ConsoleWarn (line : string)
| ConsoleError (label : string) (message : string)
| OnEnd (arg : loc) (contents : list LogEntry)
| UnhandledRejection (reason : string).

(** The functions that can be handed to [on] and [off]: the two closures
    of the constructor, the closure that each call of [startListening]
    creates, and the method [startListening] itself. *)
Inductive FnRef :=
| FnOnCallEnded
| FnOnInterrupt
| FnOnUserMessage (k : nat)
| FnStartListening.

(** Identity of functions ([===]). *)
Definition FnRef_eqb (f g : FnRef) : bool :=
  match f, g with
  | FnOnCallEnded, FnOnCallEnded => true
  | FnOnInterrupt, FnOnInterrupt => true
  | FnOnUserMessage j, FnOnUserMessage k => Nat.eqb j k
  | FnStartListening, FnStartListening => true
  | _, _ => false
  end.

(** The points at which an [async] function of the module is suspended,
    with the variables its continuation still needs: the timer of [begin],
    and the [await]s of [transcribe], [createResponse] and [textToSpeech].
    When such a promise settles, the function runs on to its next [await]
    on one of these (the resumptions in between are microtasks, which run
    before the next websocket or timer event). *)
Inductive Task :=
| AwaitTimer
| AwaitTranscribe (startTime : Z)
| AwaitResponse (startTime : Z)
| AwaitSpeech (startTime : Z) (selectedTool : option string)
| AwaitFirstResponse
| AwaitFirstSpeech.

(** The state of one session: the store of the arrays that are shared by
    reference ([assistant.prompt] and [history] are one array of turns,
    [callLog] is handed to [onEnd]), the fields of [CallConversation] and
    of its [WebCall], the listener table of the emitter in registration
    order, the suspended functions, the number of [new Date()] calls so
    far, and the calls that have left the module. *)
Record State := {
  turnArrays : gmap loc (list Turn);
  logArrays : gmap loc (list LogEntry);
  assistant : Assistant;
  history : loc;
  callLog : loc;
  pendingSamples : list chunk;
  listeners : list (string * FnRef);
  tasks : gmap nat Task;
  nextTask : nat;
  dateCalls : nat;
  effects : list Effect
}.

(** The contents of the two arrays of the conversation. *)
Definition history_of (s : State) : list Turn := turnArrays s !!! history s.
Definition callLog_of (s : State) : list LogEntry := logArrays s !!! callLog s.

(** ** Programs over the session state *)

Definition Prog (A : Type) : Type := State -> A * State.

Definition ret {A} (a : A) : Prog A := fun s => (a, s).

Definition bind {A B} (m : Prog A) (k : A -> Prog B) : Prog B :=
  fun s => k (fst (m s)) (snd (m s)).

Definition exec {A} (m : Prog A) (s : State) : State := snd (m s).

Definition get {A} (f : State -> A) : Prog A := fun s => (f s, s).

Declare Scope prog_scope.
Delimit Scope prog_scope with prog.
Bind Scope prog_scope with Prog.
Notation "'let*' x ':=' m 'in' k" := (bind m (fun x => k))
  (at level 10, x name, m at level 100, k at level 200) : prog_scope.
Notation "m '>>' k" := (bind m (fun _ => k))
  (at level 65, right associativity) : prog_scope.
Local Open Scope prog_scope.

Fixpoint for_each {A} (f : A -> Prog unit) (l : list A) : Prog unit :=
  match l with
  | [] => ret tt
  | a :: rest => f a >> for_each f rest
  end.

Definition perform (e : Effect) : Prog unit := fun s =>
  (tt, {| turnArrays := turnArrays s; logArrays := logArrays s;
          assistant := assistant s; history := history s;
          callLog := callLog s; pendingSamples := pendingSamples s;
          listeners := listeners s; tasks := tasks s;
          nextTask := nextTask s; dateCalls := dateCalls s;
          effects := effects s ++ [e] |}).

(** [array.push(t)] on the array at [l]. *)
Definition push_turn (l : loc) (t : Turn) : Prog unit := fun s =>
  (tt, {| turnArrays := <[l := turnArrays s !!! l ++ [t]]> (turnArrays s);
          logArrays := logArrays s;
          assistant := assistant s; history := history s;
          callLog := callLog s; pendingSamples := pendingSamples s;
          listeners := listeners s; tasks := tasks s;
          nextTask := nextTask s; dateCalls := dateCalls s;
          effects := effects s |}).

Definition push_log (l : loc) (e : LogEntry) : Prog unit := fun s =>
  (tt, {| turnArrays := turnArrays s;
          logArrays := <[l := logArrays s !!! l ++ [e]]> (logArrays s);
          assistant := assistant s; history := history s;
          callLog := callLog s; pendingSamples := pendingSamples s;
          listeners := listeners s; tasks := tasks s;
          nextTask := nextTask s; dateCalls := dateCalls s;
          effects := effects s |}).

Definition set_pendingSamples (p : list chunk) : Prog unit := fun s =>
  (tt, {| turnArrays := turnArrays s; logArrays := logArrays s;
          assistant := assistant s; history := history s;
          callLog := callLog s; pendingSamples := p;
          listeners := listeners s; tasks := tasks s;
          nextTask := nextTask s; dateCalls := dateCalls s;
          effects := effects s |}).

Definition set_listeners (ls : list (string * FnRef)) : Prog unit := fun s =>
  (tt, {| turnArrays := turnArrays s; logArrays := logArrays s;
          assistant := assistant s; history := history s;
          callLog := callLog s; pendingSamples := pendingSamples s;
          listeners := ls; tasks := tasks s;
          nextTask := nextTask s; dateCalls := dateCalls s;
          effects := effects s |}).

(** Suspend the running [async] function at an [await]. *)
Definition suspend (t : Task) : Prog unit := fun s =>
  (tt, {| turnArrays := turnArrays s; logArrays := logArrays s;
          assistant := assistant s; history := history s;
          callLog := callLog s; pendingSamples := pendingSamples s;
          listeners := listeners s;
          tasks := <[nextTask s := t]> (tasks s);
          nextTask := S (nextTask s); dateCalls := dateCalls s;
          effects := effects s |}).

Definition remove_task (id : nat) : Prog unit := fun s =>
  (tt, {| turnArrays := turnArrays s; logArrays := logArrays s;
          assistant := assistant s; history := history s;
          callLog := callLog s; pendingSamples := pendingSamples s;
          listeners := listeners s;
          tasks := delete id (tasks s);
          nextTask := nextTask s; dateCalls := dateCalls s;
          effects := effects s |}).

(** ** The protocol tokens *)

Definition START_LISTENING_TOKEN : string := "RDY".
Definition END_OF_SPEECH_TOKEN : string := "EOS".
Definition INTERRUPT_TOKEN : string := "INT".
Definition CLEAR_BUFFER_TOKEN : string := "CLR".

(** ** The event emitter that [WebCall] extends *)

Definition listeners_for (name : string) (ls : list (string * FnRef))
  : list (string * FnRef) :=
  filter (fun l => l.1 = name) ls.

(** [on(name, fn)]: the listener is added after those already there. *)
Definition on (name : string) (fn : FnRef) : Prog unit :=
  let* ls := get listeners in set_listeners (ls ++ [(name, fn)]).

(** Removes the first registration of [fn] under [name]. *)
Fixpoint remove_first (name : string) (fn : FnRef) (ls : list (string * FnRef))
  : list (string * FnRef) :=
  match ls with
  | [] => []
  | l :: rest =>
      if String.eqb l.1 name && FnRef_eqb l.2 fn
      then rest
      else l :: remove_first name fn rest
  end.

(** [off(name, fn)]: the most recently added registration of [fn] under
    [name] is removed, if there is one. *)
Definition off (name : string) (fn : FnRef) : Prog unit :=
  let* ls := get listeners in
  set_listeners (reverse (remove_first name fn (reverse ls))).

Section Model.

Variable W : World.

(** [new Date()]. *)
Definition new_Date : Prog Z := fun s =>
  (clock W (dateCalls s),
   {| turnArrays := turnArrays s; logArrays := logArrays s;
      assistant := assistant s; history := history s;
      callLog := callLog s; pendingSamples := pendingSamples s;
      listeners := listeners s; tasks := tasks s;
      nextTask := nextTask s; dateCalls := S (dateCalls s);
      effects := effects s |}).

(** *** WebCall *)

Definition pushAudio (audio : list sample) : Prog unit :=
  for_each (fun c => perform (WsSend (AudioFrame c))) (pushAudio_frames audio).

Definition pushMeta (metadata : string) : Prog unit :=
  perform (WsSend (TextFrame metadata)).

(** [end()]. *)
Definition end_call : Prog unit :=
  pushAudio (generateBeep W 180) >> perform WsClose.

(** [_profileIt(name, fn)] is split at its [await]: the part before it
    reads the clock (and then runs [fn], up to the [await] of [fn]), the
    part after it reads the clock again and sends the timing line. *)
Definition _profileIt_before : Prog Z := new_Date.

Definition _profileIt_after (name : string) (startTime : Z) : Prog unit :=
  let* endTime := new_Date in
  pushMeta ("--- time." +:+ name +:+ " " +:+ show_Z (endTime - startTime)
            +:+ " ms").

(** *** CallConversation *)

Definition addToCallLog (ev : string) (m : Meta) : Prog unit :=
  let* t := new_Date in
  let* l := get callLog in
  push_log l {| timestamp := toISOString W t; event := ev; meta := m |}.

Definition noteWhatWasSaid (speaker : string) (message : option string)
  : Prog unit :=
  addToCallLog "TRANSCRIPT" (MetaTranscript speaker message) >>
  (let* h := get history in
   push_turn h {| role := speaker; content := message |}) >>
  pushMeta (speaker +:+ ": " +:+ to_str message).

(** The call [this.assistant.createResponse(this.history)]: the array is
    passed by reference; its contents at the call are recorded too. *)
Definition createResponse : Prog unit :=
  let* h := get history in
  let* c := get history_of in
  perform (CreateResponse h c).

Definition startListening : Prog unit :=
  let* ls := get listeners in on "userMessage" (FnOnUserMessage (length ls)).

(** The [userMessage] listener up to its first [await]. *)
Definition onUserMessage (message : option string) : Prog unit :=
  pushMeta CLEAR_BUFFER_TOKEN >>
  noteWhatWasSaid "user" message >>
  let* startTime := _profileIt_before in
  createResponse >>
  suspend (AwaitResponse startTime).

(** The [userMessage] listener from [if (selectedTool)] on. *)
Definition handleTool (selectedTool : option string) : Prog unit :=
  (if truthy selectedTool
   then addToCallLog "TOOL_SELECTED" (MetaTool selectedTool)
   else ret tt) >>
  if bool_decide (selectedTool = Some "endCall")
  then pushMeta "---- Assistant Hung Up ----" >>
       end_call >>
       off "userMessage" FnStartListening
  else if truthy selectedTool
  then perform (ConsoleWarn ("[CUSTOM TOOLS NOT YET SUPPORTED] Unhandled tool: "
                             +:+ to_str selectedTool))
  else ret tt.

(** The [userMessage] listener after [createResponse] has resolved. *)
Definition afterResponse (startTime : Z) (content selectedTool : option string)
  : Prog unit :=
  _profileIt_after "responseGeneration" startTime >>
  if truthy content
  then noteWhatWasSaid "assistant" content >>
       let* startTime' := _profileIt_before in
       perform (TextToSpeech content) >>
       suspend (AwaitSpeech startTime' selectedTool)
  else handleTool selectedTool.

(** The [userMessage] listener after [textToSpeech] has resolved. *)
Definition afterSpeech (startTime : Z) (selectedTool : option string)
    (audio : list sample) : Prog unit :=
  _profileIt_after "speechGeneration" startTime >>
  pushAudio audio >>
  handleTool selectedTool.

(** What calling a registered function does. *)
Definition call_listener (fn : FnRef) (arg : option string) : Prog unit :=
  match fn with
  | FnOnCallEnded =>
      addToCallLog "CALL_ENDED" MetaUndefined >>
      let* l := get callLog in
      let* c := get callLog_of in
      perform (OnEnd l c)
  | FnOnInterrupt =>
      noteWhatWasSaid "user" (Some "[Interrupted your last message]")
  | FnOnUserMessage _ => onUserMessage arg
  | FnStartListening => startListening
  end.

(** [emit(name, arg)]: the listeners registered under [name] at the time
    of the call run in registration order.  As in Node's [EventEmitter],
    emitting ["error"] without a listener throws; the result says whether
    [emit] returned normally.  [emit_to] is [emit] once the listeners have
    been read off the table. *)
Definition emit_to (ls : list (string * FnRef)) (name : string)
    (arg : option string) : Prog bool :=
  perform (Emit name arg) >>
  if bool_decide (name = "error") && bool_decide (ls = [])
  then ret false
  else for_each (fun l => call_listener l.2 arg) ls >> ret true.

Definition emit (name : string) (arg : option string) : Prog bool :=
  let* ls := get (fun s => listeners_for name (listeners s)) in
  emit_to ls name arg.

Definition _handleWebsocket_Audio (message : list byte) : Prog unit :=
  match Float32Array_of_buffer message with
  | Some audio =>
      let* p := get pendingSamples in set_pendingSamples (p ++ [audio])
  | None => perform (UnhandledRejection "RangeError")
  end.

(** [_handleWebsocket_Meta] up to its [await]. *)
Definition _handleWebsocket_Meta (messageString : string) : Prog unit :=
  if String.eqb messageString END_OF_SPEECH_TOKEN
  then
    let* data := get pendingSamples in
    if (0 <? length data)%nat
    then
      let* startTime := _profileIt_before in
      match combineAudio data with
      | Some combinedAudio =>
          perform (SttTranscribe combinedAudio) >>
          suspend (AwaitTranscribe startTime)
      | None => perform (UnhandledRejection "RangeError")
      end
    else perform (ConsoleWarn "GOT EOS but no audio")
  else
    let* returned := emit messageString None in
    if returned
    then perform (ConsoleError "Unknown message type:" messageString)
    else perform (UnhandledRejection "ERR_UNHANDLED_ERROR").

(** [_handleWebsocket_Meta] after [transcribe] has resolved. *)
Definition afterTranscribe (startTime : Z) (transcription : option string)
  : Prog unit :=
  _profileIt_after "transcription" startTime >>
  emit "userMessage" transcription >>
  set_pendingSamples [].

(** The listener of the websocket's [close] event. *)
Definition onClose : Prog unit :=
  emit "callEnded" None >> perform SttDestroy.

(** [begin(delay, beep)] up to [setTimeout]. *)
Definition begin (beep : bool) : Prog unit :=
  (if beep then pushAudio (generateBeep W 440) else ret tt) >>
  suspend AwaitTimer.

(** The timer callback of [begin] from [noteWhatWasSaid] on. *)
Definition speakFirstMessage (firstMessage : option string) : Prog unit :=
  noteWhatWasSaid "assistant" firstMessage >>
  perform (TextToSpeech firstMessage) >>
  suspend AwaitFirstSpeech.

(** The timer callback of [begin] up to its first [await]. *)
Definition onTimer : Prog unit :=
  startListening >>
  addToCallLog "READY" MetaUndefined >>
  pushMeta "--- Assistant Ready ---" >>
  pushMeta START_LISTENING_TOKEN >>
  let* a := get assistant in
  if speakFirst a
  then
    if truthy (speakFirstOpeningMessage a)
    then speakFirstMessage (speakFirstOpeningMessage a)
    else createResponse >> suspend AwaitFirstResponse
  else ret tt.

(** *** The events that drive a session *)

(** A websocket message: an [ArrayBuffer], or anything else, which the
    code only reads through [toString()]. *)
Inductive Message :=
| ArrayBufferMsg (bytes : list byte)
| OtherMsg (text : string).

(** How a pending [await] (or the timer of [begin]) is settled. *)
Inductive Outcome :=
| TimerFired
| Transcribed (transcription : option string)
| Responded (content selectedTool : option string)
| Synthesized (audio : list sample)
| Rejected.

Inductive Event :=
| Begin (beep : bool)
| WsMessage (m : Message)
| WsClosed
| Settle (id : nat) (o : Outcome).

(** The continuation of a suspended function for an outcome of the kind it
    waits for; a rejected promise ends the function with an unhandled
    rejection. *)
Definition resume (t : Task) (o : Outcome) : option (Prog unit) :=
  match t, o with
  | AwaitTimer, TimerFired => Some onTimer
  | AwaitTranscribe startTime, Transcribed transcription =>
      Some (afterTranscribe startTime transcription)
  | AwaitResponse startTime, Responded content selectedTool =>
      Some (afterResponse startTime content selectedTool)
  | AwaitSpeech startTime selectedTool, Synthesized audio =>
      Some (afterSpeech startTime selectedTool audio)
  | AwaitFirstResponse, Responded content _ => Some (speakFirstMessage content)
  | AwaitFirstSpeech, Synthesized audio => Some (pushAudio audio)
  | AwaitTimer, Rejected => None
  | _, Rejected => Some (perform (UnhandledRejection "rejected"))
  | _, _ => None
  end.

Definition _onWebsocketMessage (message : Message) : Prog unit :=
  match message with
  | ArrayBufferMsg buffer => _handleWebsocket_Audio buffer
  | OtherMsg text => _handleWebsocket_Meta text
  end.

(** The entry points of the module: a call of [begin], the two listeners
    that the constructor of [WebCall] puts on the websocket, and the
    resumption of a suspended function. *)
Definition handle (e : Event) : Prog unit :=
  match e with
  | Begin beep => begin beep
  | WsMessage message => _onWebsocketMessage message
  | WsClosed => onClose
  | Settle id o =>
      let* ts := get tasks in
      match ts !! id with
      | Some t =>
          match resume t o with
          | Some continuation => remove_task id >> continuation
          | None => ret tt
          end
      | None => ret tt
      end
  end.

Definition step (s : State) (e : Event) : State := exec (handle e) s.

Definition run (s : State) (es : list Event) : State := foldl step s es.

(** [new CallConversation(assistant, ws, options)], for an assistant whose
    [prompt] array holds [prompt0]: [history] is the same array, [callLog]
    a new one. *)
Definition new_CallConversation (a : Assistant) (prompt0 : list Turn) : State :=
  exec (on "callEnded" FnOnCallEnded >>
        on INTERRUPT_TOKEN FnOnInterrupt >>
        addToCallLog "INIT" (MetaAssistant (JSON_stringify W a prompt0)))
    {| turnArrays := {[ prompt a := prompt0 ]};
       logArrays := {[ 0 := [] ]};
       assistant := a;
       history := prompt a;
       callLog := 0;
       pendingSamples := [];
       listeners := [];
       tasks := ∅;
       nextTask := 0;
       dateCalls := 0;
       effects := [] |}.

End Model.

(** ** Predicates used in the statements *)

(** The sample that the copy loop leaves at position [p]: the one of the
    last chunk (highest index) whose copy covers [p], if any. *)
Fixpoint last_writer (data : list chunk) (i p : nat) : option sample :=
  match data with
  | [] => None
  | c :: rest =>
      match last_writer rest (S i) p with
      | Some v => Some v
      | None =>
          if (i * CHUNK <=? p)%nat && (p <? i * CHUNK + length c)%nat
          then c !! (p - i * CHUNK)%nat
          else None
      end
  end.

(** The registrations that a session creates: the two listeners of the
    constructor, then one [userMessage] closure per [startListening]. *)
Definition is_user_listener (l : string * FnRef) : Prop :=
  l.1 = "userMessage" /\ exists k, l.2 = FnOnUserMessage k.

Definition listeners_ok (s : State) : Prop :=
  exists ums,
    listeners s = ("callEnded", FnOnCallEnded) :: ("INT", FnOnInterrupt) :: ums
    /\ Forall is_user_listener ums.

(** Effects other than the two that hand out an array of the session. *)
Definition plain (e : Effect) : bool :=
  match e with
  | OnEnd _ _ | CreateResponse _ _ => false
  | _ => true
  end.

(** The events on which [callEnded] is emitted: the close of the websocket,
    and a text message that spells the event's name. *)
Definition ends_call (e : Event) : bool :=
  match e with
  | WsClosed => true
  | WsMessage (OtherMsg m) => String.eqb m "callEnded"
  | _ => false
  end.

(** A program respects a relation when every state is related to the one
    the program leaves. *)
Definition pres (R : State -> State -> Prop) {A} (m : Prog A) : Prop :=
  forall s, R s (exec m s).

(** [Q] between states whose listener table is the session's. *)
Definition guarded (Q : State -> State -> Prop) (s s' : State) : Prop :=
  listeners_ok s -> listeners_ok s' /\ Q s s'.

(** Both arrays and the effect trace only grow at the end. *)
Definition extends (s s' : State) : Prop :=
  history s' = history s /\ callLog s' = callLog s /\
  (forall l : loc, (turnArrays s !!! l) `prefix_of` (turnArrays s' !!! l)) /\
  (forall l : loc, (logArrays s !!! l) `prefix_of` (logArrays s' !!! l)) /\
  effects s `prefix_of` effects s'.

(** The turn that a [TRANSCRIPT] entry of the log records. *)
Definition transcript_turn (e : LogEntry) : option Turn :=
  if String.eqb (event e) "TRANSCRIPT"
  then match meta e with
       | MetaTranscript speaker message =>
           Some {| role := speaker; content := message |}
       | _ => None
       end
  else None.

(** The turns noted by [noteWhatWasSaid], read off the log. *)
Definition noted (log : list LogEntry) : list Turn := omap transcript_turn log.

(** What a [createResponse] call was given: the prompt array of the
    assistant, holding the initial prompt and the turns noted by then. *)
Definition response_request_ok (a : Assistant) (p0 : list Turn)
    (log : list LogEntry) (e : Effect) : Prop :=
  match e with
  | CreateResponse l c =>
      l = prompt a /\
      exists k, k <= length log /\ c = p0 ++ noted (take k log)
  | _ => True
  end.

(** The history of a session of assistant [a] with initial prompt [p0]. *)
Definition history_inv (a : Assistant) (p0 : list Turn) (s : State) : Prop :=
  assistant s = a /\
  history s = prompt a /\
  history_of s = p0 ++ noted (callLog_of s) /\
  Forall (response_request_ok a p0 (callLog_of s)) (effects s).

Definition keeps (I : State -> Prop) (s s' : State) : Prop := I s -> I s'.

(** The [CALL_ENDED] entries of the log and the calls of [onEnd]. *)
Definition is_OnEnd (e : Effect) : bool :=
  match e with
  | OnEnd _ _ => true
  | _ => false
  end.

Definition ended_entries (s : State) : list LogEntry :=
  filter (fun e => event e = "CALL_ENDED") (callLog_of s).

Definition onEnd_calls (s : State) : list Effect :=
  filter (fun e => is_OnEnd e = true) (effects s).

Definition same_ends (s s' : State) : Prop :=
  callLog s' = callLog s /\
  ended_entries s' = ended_entries s /\
  onEnd_calls s' = onEnd_calls s.

(** ** A concrete session, for the examples *)

Definition demo_world : World :=
  {| clock := fun n => Z.of_nat (10 * n);
     toISOString := show_Z;
     generateBeep := fun frequency => [frequency];
     JSON_stringify := fun _ _ => "{}" |}.

Definition demo_assistant : Assistant :=
  {| prompt := 7; speakFirst := false; speakFirstOpeningMessage := None |}.

Definition demo_prompt : list Turn :=
  [ {| role := "system"; content := Some "Be brief." |} ].

Definition demo_session : State :=
  new_CallConversation demo_world demo_assistant demo_prompt.

(** A frame of one sample, and a frame of 1024 copies of a sample. *)
Definition one_sample_frame : list byte := [x00; x00; x80; x3f].

Definition full_frame (b : byte) : list byte :=
  concat (replicate CHUNK [b; x00; x00; x00]).

(** A session in which the assistant hangs up while a second utterance is
    being transcribed. *)
Definition hangup_trace : list Event :=
  [ Begin false; Settle 0 TimerFired;
    WsMessage (ArrayBufferMsg one_sample_frame); WsMessage (OtherMsg "EOS");
    Settle 1 (Transcribed (Some "bye"));
    WsMessage (ArrayBufferMsg one_sample_frame); WsMessage (OtherMsg "EOS");
    Settle 2 (Responded None (Some "endCall")) ].

(** A session whose websocket closes while the assistant's response is
    being generated. *)
Definition late_response_trace : list Event :=
  [ Begin false; Settle 0 TimerFired;
    WsMessage (ArrayBufferMsg one_sample_frame); WsMessage (OtherMsg "EOS");
    Settle 1 (Transcribed (Some "hi"));
    WsClosed;
    Settle 2 (Responded (Some "Hello") None) ].

(** A session that has buffered one frame of 1025 samples. *)
Definition long_frame_session : State :=
  run demo_world demo_session
    [ WsMessage (ArrayBufferMsg (full_frame x02 ++ one_sample_frame)) ].

(** A session that has buffered a frame of one sample and a full frame. *)
Definition short_frame_session : State :=
  run demo_world demo_session
    [ WsMessage (ArrayBufferMsg one_sample_frame);
      WsMessage (ArrayBufferMsg (full_frame x02)) ].

(** Both states hold the same pending audio. *)
Definition same_buffer (s s' : State) : Prop :=
  pendingSamples s' = pendingSamples s.

(** The chunk that an event appends to the pending audio: the samples of a
    binary frame. *)
Definition received_chunk (e : Event) : list chunk :=
  match e with
  | WsMessage (ArrayBufferMsg buffer) => [float32_words buffer]
  | _ => []
  end.

Definition received_chunks (es : list Event) : list chunk :=
  concat (map received_chunk es).

(** The events of an utterance of 1024-sample chunks: a binary frame holds
    4096 bytes, and no transcription comes back. *)
Definition keeps_utterance (e : Event) : Prop :=
  match e with
  | WsMessage (ArrayBufferMsg buffer) => length buffer = 4 * CHUNK
  | Settle _ (Transcribed _) => False
  | _ => True
  end.

(** A frame of [n] copies of the sample with bit pattern [b]. *)
Definition frame_of (n : nat) (b : byte) : list byte :=
  concat (replicate n [b; x00; x00; x00]).

(** A session that has buffered chunks of 1026, 1 and 1024 samples. *)
Definition spill_session : State :=
  run demo_world demo_session
    [ WsMessage (ArrayBufferMsg (frame_of 1026 x08));
      WsMessage (ArrayBufferMsg (frame_of 1 x05));
      WsMessage (ArrayBufferMsg (frame_of 1024 x09)) ].

(** Frames of 1024 samples with an interrupt and a call of [begin] in
    between. *)
Definition interleaved_utterance : list Event :=
  [ WsMessage (ArrayBufferMsg (full_frame x01));
    WsMessage (OtherMsg "INT");
    Begin true;
    WsMessage (ArrayBufferMsg (full_frame x02)) ].

(** ** Further predicates and examples *)

(** The line that [_profileIt] sends for a call that took [duration]
    milliseconds. *)
Definition time_line (name : string) (duration : Z) : string :=
  "--- time." +:+ name +:+ " " +:+ show_Z duration +:+ " ms".

(** The calls of [transcribe] made so far. *)
Definition is_SttTranscribe (e : Effect) : bool :=
  match e with
  | SttTranscribe _ => true
  | _ => false
  end.

Definition transcribe_calls (s : State) : list Effect :=
  filter (fun e => is_SttTranscribe e = true) (effects s).

(** The [userMessage] closures registered so far. *)
Definition userMessage_listeners (s : State) : list (string * FnRef) :=
  listeners_for "userMessage" (listeners s).

(** The entries of the log carry successive readings of the clock. *)
Definition increasing (ks : list nat) : Prop :=
  forall i j a b, ks !! i = Some a -> ks !! j = Some b -> i < j -> a < b.

Definition chronological (W : World) (s : State) : Prop :=
  exists ks,
    map timestamp (callLog_of s) = map (fun k => toISOString W (clock W k)) ks /\
    increasing ks /\
    Forall (fun k => k < dateCalls s) ks.

(** A whole binary frame: its bytes make up 32-bit samples. *)
Definition whole_frame (bytes : list byte) : bool :=
  (length bytes mod 4 =? 0)%nat.

(** Sessions that wait: for the timer, for a transcription, for a
    response, for the speech of a response that hangs up, and for the
    opening line of an assistant that speaks first. *)
Definition waiting_for_timer : list Event := [ Begin false ].

Definition waiting_for_transcript : list Event :=
  [ Begin false; Settle 0 TimerFired;
    WsMessage (ArrayBufferMsg (full_frame x01)); WsMessage (OtherMsg "EOS") ].

Definition waiting_for_response : list Event :=
  waiting_for_transcript ++ [ Settle 1 (Transcribed (Some "hi")) ].

Definition waiting_for_speech : list Event :=
  waiting_for_response ++ [ Settle 2 (Responded (Some "Bye") (Some "endCall")) ].

Definition opening_assistant : Assistant :=
  {| prompt := 7; speakFirst := true; speakFirstOpeningMessage := None |}.

Definition waiting_for_opening_line : State :=
  run demo_world (new_CallConversation demo_world opening_assistant demo_prompt)
    [ Begin false; Settle 0 TimerFired ].

Arguments CHUNK : simpl never.

Lemma CHUNK_pos : 0 < CHUNK.
Proof. unfold CHUNK. lia. Qed.

Lemma slice_chunk (audio : list sample) i :
  slice audio i (i + CHUNK) = take CHUNK (drop i audio).
Proof. unfold slice. f_equal. lia. Qed.

Lemma pushAudio_loop_concat fuel : forall (audio : list sample) i,
  length audio - i <= fuel ->
  concat (pushAudio_loop fuel audio i) = drop i audio.
Proof.
  induction fuel as [|fuel IH]; intros audio i Hfuel; cbn [pushAudio_loop].
  - rewrite drop_ge by lia. reflexivity.
  - destruct (Nat.ltb_spec i (length audio)) as [Hlt|Hge].
    + cbn [concat]. rewrite IH by (pose proof CHUNK_pos; lia).
      rewrite slice_chunk, <- drop_drop. apply take_drop.
    + rewrite drop_ge by lia. reflexivity.
Qed.

Lemma pushAudio_loop_lookup fuel : forall (audio : list sample) i k,
  length audio - i <= fuel ->
  pushAudio_loop fuel audio i !! k =
    if (i + k * CHUNK <? length audio)%nat
    then Some (take CHUNK (drop (i + k * CHUNK) audio))
    else None.
Proof.
  induction fuel as [|fuel IH]; intros audio i k Hfuel; cbn [pushAudio_loop].
  - destruct (Nat.ltb_spec (i + k * CHUNK) (length audio)); [lia | apply lookup_nil].
  - destruct (Nat.ltb_spec i (length audio)) as [Hlt|Hge].
    + destruct k as [|k]; cbn [lookup list_lookup].
      * rewrite Nat.add_0_r. destruct (Nat.ltb_spec i (length audio)); [|lia].
        by rewrite slice_chunk.
      * rewrite IH by (pose proof CHUNK_pos; lia).
        replace (i + CHUNK + k * CHUNK) with (i + S k * CHUNK) by lia. done.
    + destruct (Nat.ltb_spec (i + k * CHUNK) (length audio)); [lia | apply lookup_nil].
Qed.

Lemma Float32Array_set_length target src offset out :
  Float32Array_set target src offset = Some out -> length out = length target.
Proof.
  unfold Float32Array_set. destruct (Nat.leb_spec (offset + length src) (length target)); [|done].
  intros [= <-]. rewrite !length_app, length_take, length_drop. lia.
Qed.

Lemma Float32Array_set_lookup target src offset out p :
  Float32Array_set target src offset = Some out ->
  out !! p = if (offset <=? p)%nat && (p <? offset + length src)%nat
             then src !! (p - offset) else target !! p.
Proof.
  unfold Float32Array_set. destruct (Nat.leb_spec (offset + length src) (length target)); [|done].
  intros [= <-].
  destruct (Nat.leb_spec offset p) as [Hle|Hlt]; cbn [andb].
  - rewrite lookup_app_r; rewrite length_take; [|lia].
    replace (p - offset `min` length target) with (p - offset) by lia.
    destruct (Nat.ltb_spec p (offset + length src)).
    + rewrite lookup_app_l by lia. done.
    + rewrite lookup_app_r by lia. rewrite lookup_drop. f_equal. lia.
  - rewrite lookup_app_l by (rewrite length_take; lia).
    by rewrite lookup_take_lt.
Qed.

Lemma copy_chunks_spec (data : list chunk) : forall i buf out,
  copy_chunks data i buf = Some out ->
  length out = length buf /\
  forall p, out !! p = match last_writer data i p with
                       | Some v => Some v
                       | None => buf !! p
                       end.
Proof.
  induction data as [|c rest IH]; intros i buf out; cbn [copy_chunks last_writer].
  - intros [= <-]. done.
  - destruct (Float32Array_set buf c (i * CHUNK)) as [buf1|] eqn:Hset; [|done].
    intros Hrest. destruct (IH _ _ _ Hrest) as [Hlen Hlook]. split.
    + rewrite Hlen. eapply Float32Array_set_length, Hset.
    + intros p. rewrite Hlook. destruct (last_writer rest (S i) p); [done|].
      rewrite (Float32Array_set_lookup _ _ _ _ p Hset).
      destruct ((i * CHUNK <=? p)%nat && (p <? i * CHUNK + length c)%nat) eqn:Hin; [|done].
      apply andb_prop in Hin as [H1%Nat.leb_le H2%Nat.ltb_lt].
      destruct (lookup_lt_is_Some_2 c (p - i * CHUNK)) as [v ->]; [lia|done].
Qed.

Lemma copy_chunks_is_Some (data : list chunk) : forall i buf,
  is_Some (copy_chunks data i buf) <->
  (forall j c, data !! j = Some c -> (i + j) * CHUNK + length c <= length buf).
Proof.
  induction data as [|c rest IH]; intros i buf; cbn [copy_chunks].
  - split; [intros _ j c' [=] | intros _; by eexists].
  - unfold Float32Array_set at 1.
    destruct (Nat.leb_spec (i * CHUNK + length c) (length buf)) as [Hfit|Hno].
    + rewrite IH. rewrite !length_app, length_take, length_drop.
      replace ((i * CHUNK) `min` length buf + (length c + (length buf - (i * CHUNK + length c))))
        with (length buf) by lia.
      split.
      * intros H [|j] c' Hj; cbn in Hj.
        -- injection Hj as <-. lia.
        -- specialize (H j c' Hj). lia.
      * intros H j c' Hj. specialize (H (S j) c' Hj). lia.
    + split; [intros [? [=]] | intros H].
      specialize (H 0 c eq_refl). lia.
Qed.

Lemma copy_chunks_uniform (data : list chunk) : forall i pre post,
  length pre = i * CHUNK ->
  length post = length data * CHUNK ->
  Forall (fun c => length c = CHUNK) data ->
  copy_chunks data i (pre ++ post) = Some (pre ++ concat data).
Proof.
  induction data as [|c rest IH]; intros i pre post Hpre Hpost Hall; cbn [copy_chunks concat].
  - destruct post; [done | cbn in Hpost; lia].
  - inversion Hall as [|? ? Hc Hrest]; subst.
    unfold Float32Array_set. cbn [length] in Hpost.
    destruct (Nat.leb_spec (i * CHUNK + length c) (length (pre ++ post))) as [_|Hno];
      [|rewrite length_app in Hno; lia].
    rewrite take_app_length' by done.
    rewrite drop_app_add' by done.
    replace (pre ++ c ++ drop (length c) post) with ((pre ++ c) ++ drop (length c) post)
      by (by rewrite <- app_assoc).
    rewrite (IH (S i)); [by rewrite <- app_assoc | | | done].
    + rewrite length_app. lia.
    + rewrite length_drop. lia.
Qed.

Lemma combineAudio_uniform (data : list chunk) :
  Forall (fun c => length c = CHUNK) data ->
  combineAudio data = Some (concat data).
Proof.
  intros Hall. unfold combineAudio, Float32Array_zeros.
  apply (copy_chunks_uniform data 0 [] (replicate (length data * CHUNK) 0%Z)); try done.
  by rewrite length_replicate.
Qed.

(** ** Programs and relations *)

Lemma exec_bind {A B} (m : Prog A) (k : A -> Prog B) s :
  exec (bind m k) s = exec (k (fst (m s))) (exec m s).
Proof. reflexivity. Qed.

Lemma pres_ret (R : relation State) `{!Reflexive R} {A} (a : A) : pres R (ret a).
Proof. intros s. apply reflexivity. Qed.

Lemma pres_get (R : relation State) `{!Reflexive R} {A} (f : State -> A) :
  pres R (get f).
Proof. intros s. apply reflexivity. Qed.

Lemma pres_bind (R : relation State) `{!Transitive R} {A B}
    (m : Prog A) (k : A -> Prog B) :
  pres R m -> (forall a, pres R (k a)) -> pres R (bind m k).
Proof.
  intros Hm Hk s. rewrite exec_bind.
  transitivity (exec m s); [apply Hm | apply Hk].
Qed.

Lemma pres_for_each (R : relation State) `{!PreOrder R} {A}
    (f : A -> Prog unit) (l : list A) :
  Forall (fun a => pres R (f a)) l -> pres R (for_each f l).
Proof.
  induction 1 as [|a l Ha _ IH]; cbn [for_each].
  - apply pres_ret; apply _.
  - apply pres_bind; [apply _ | done | done].
Qed.

Global Instance guarded_preorder (Q : relation State) `{!PreOrder Q} :
  PreOrder (guarded Q).
Proof.
  split.
  - intros s Hs. split; [done | reflexivity].
  - intros s1 s2 s3 H12 H23 Hs. destruct (H12 Hs) as [Hs2 Hq12].
    destruct (H23 Hs2) as [Hs3 Hq23]. split; [done | by transitivity s2].
Qed.

Global Instance extends_preorder : PreOrder extends.
Proof.
  split.
  - intros s. by repeat split.
  - intros s1 s2 s3 (?&?&Ht1&Hl1&He1) (?&?&Ht2&Hl2&He2).
    repeat split; try congruence.
    + intros l. by transitivity (turnArrays s2 !!! l).
    + intros l. by transitivity (logArrays s2 !!! l).
    + by transitivity (effects s2).
Qed.

(** ** The listener table *)

Lemma FnRef_eqb_eq f g : FnRef_eqb f g = true -> f = g.
Proof.
  destruct f, g; cbn; try done. intros H. f_equal. by apply Nat.eqb_eq.
Qed.

Lemma remove_first_absent name fn (ls : list (string * FnRef)) :
  (name, fn) ∉ ls -> remove_first name fn ls = ls.
Proof.
  induction ls as [|[n f] ls IH]; [done|]. intros Hx. cbn [remove_first fst snd].
  destruct (String.eqb n name && FnRef_eqb f fn) eqn:Heq.
  - exfalso. apply Hx. apply andb_prop in Heq as [Hn Hf].
    apply String.eqb_eq in Hn as ->. apply FnRef_eqb_eq in Hf as ->. left.
  - f_equal. apply IH. intros ?. apply Hx. by right.
Qed.

Lemma listeners_ok_elem s name fn :
  listeners_ok s -> (name, fn) ∈ listeners s ->
  (name = "callEnded" /\ fn = FnOnCallEnded) \/
  (name = "INT" /\ fn = FnOnInterrupt) \/
  (name = "userMessage" /\ exists k, fn = FnOnUserMessage k).
Proof.
  intros (ums & -> & Hums) Hin.
  apply elem_of_cons in Hin as [[= -> ->]|Hin]; [by left|].
  apply elem_of_cons in Hin as [[= -> ->]|Hin]; [right; by left|].
  right; right. rewrite Forall_forall in Hums. apply (Hums _ Hin).
Qed.

Lemma listeners_ok_startListening s :
  listeners_ok s -> listeners_ok (exec startListening s).
Proof.
  intros (ums & Hls & Hums).
  exists (ums ++ [("userMessage", FnOnUserMessage (length (listeners s)))]).
  split.
  - cbn. by rewrite Hls.
  - apply Forall_app. split; [done|]. apply Forall_singleton. split; [done|by eexists].
Qed.

Lemma off_startListening_noop s :
  listeners_ok s ->
  reverse (remove_first "userMessage" FnStartListening (reverse (listeners s)))
  = listeners s.
Proof.
  intros Hok. rewrite remove_first_absent; [apply reverse_involutive|].
  rewrite elem_of_reverse. intros Hin.
  destruct (listeners_ok_elem _ _ _ Hok Hin) as [[? [=]]|[[? [=]]|[_ [k [=]]]]].
Qed.

Lemma listeners_ok_off s :
  listeners_ok s -> listeners_ok (exec (off "userMessage" FnStartListening) s).
Proof.
  intros Hok.
  assert (listeners (exec (off "userMessage" FnStartListening) s) = listeners s)
    as Heq by exact (off_startListening_noop s Hok).
  unfold listeners_ok. rewrite Heq. exact Hok.
Qed.

Lemma listeners_for_callEnded s :
  listeners_ok s ->
  listeners_for "callEnded" (listeners s) = [("callEnded", FnOnCallEnded)].
Proof.
  intros (ums & -> & Hums). unfold listeners_for.
  rewrite filter_cons_True by done. rewrite filter_cons_False by done.
  f_equal. induction Hums as [|l ums [Hl _] _ IH]; [done|].
  rewrite filter_cons_False; [done|]. cbn. by rewrite Hl.
Qed.

Lemma listeners_for_INT s :
  listeners_ok s ->
  listeners_for "INT" (listeners s) = [("INT", FnOnInterrupt)].
Proof.
  intros (ums & -> & Hums). unfold listeners_for.
  rewrite filter_cons_False by done. rewrite filter_cons_True by done.
  f_equal. induction Hums as [|l ums [Hl _] _ IH]; [done|].
  rewrite filter_cons_False; [done|]. cbn. by rewrite Hl.
Qed.

Lemma listeners_for_other s name :
  listeners_ok s ->
  name <> "callEnded" -> name <> "INT" -> name <> "userMessage" ->
  listeners_for name (listeners s) = [].
Proof.
  intros (ums & -> & Hums) H1 H2 H3. unfold listeners_for.
  rewrite filter_cons_False by (cbn; congruence).
  rewrite filter_cons_False by (cbn; congruence).
  induction Hums as [|l ums [Hl _] _ IH]; [done|].
  rewrite filter_cons_False; [done|]. cbn. congruence.
Qed.

(** ** From the building blocks of the module to whole events *)

Create HintDb pres.

Section Lifting.

Variable W : World.
Variable Q : relation State.
Context `{!PreOrder Q}.

(** Whether the listener of [callEnded] respects [Q]. *)
Variable ends_ok : Prop.

Hypothesis Q_perform : forall e, plain e = true -> pres Q (perform e).
Hypothesis Q_new_Date : pres Q (new_Date W).
Hypothesis Q_addToCallLog : forall ev m,
  ev <> "CALL_ENDED" -> ev <> "TRANSCRIPT" -> pres Q (addToCallLog W ev m).
Hypothesis Q_noteWhatWasSaid : forall sp m, pres Q (noteWhatWasSaid W sp m).
Hypothesis Q_createResponse : pres Q createResponse.
Hypothesis Q_suspend : forall t, pres Q (suspend t).
Hypothesis Q_remove_task : forall id, pres Q (remove_task id).
Hypothesis Q_set_pendingSamples : forall p, pres Q (set_pendingSamples p).
Hypothesis Q_set_listeners : forall ls, pres Q (set_listeners ls).
Hypothesis Q_ended : ends_ok -> forall arg, pres Q (call_listener W FnOnCallEnded arg).

Lemma guarded_intro {A} (m : Prog A) :
  (forall s, listeners_ok s -> listeners_ok (exec m s)) ->
  pres Q m -> pres (guarded Q) m.
Proof. intros Hl Hq s Hok. split; [by apply Hl | apply Hq]. Qed.

Lemma R_perform e : plain e = true -> pres (guarded Q) (perform e).
Proof. intros. apply guarded_intro; [intros s Hs; exact Hs | auto]. Qed.

Lemma R_new_Date : pres (guarded Q) (new_Date W).
Proof. apply guarded_intro; [intros s Hs; exact Hs | auto]. Qed.

Lemma R_addToCallLog ev m :
  ev <> "CALL_ENDED" -> ev <> "TRANSCRIPT" -> pres (guarded Q) (addToCallLog W ev m).
Proof. intros. apply guarded_intro; [intros s Hs; exact Hs | auto]. Qed.

Lemma R_noteWhatWasSaid sp m : pres (guarded Q) (noteWhatWasSaid W sp m).
Proof. apply guarded_intro; [intros s Hs; exact Hs | auto]. Qed.

Lemma R_createResponse : pres (guarded Q) createResponse.
Proof. apply guarded_intro; [intros s Hs; exact Hs | auto]. Qed.

Lemma R_suspend t : pres (guarded Q) (suspend t).
Proof. apply guarded_intro; [intros s Hs; exact Hs | auto]. Qed.

Lemma R_remove_task id : pres (guarded Q) (remove_task id).
Proof. apply guarded_intro; [intros s Hs; exact Hs | auto]. Qed.

Lemma R_set_pendingSamples p : pres (guarded Q) (set_pendingSamples p).
Proof. apply guarded_intro; [intros s Hs; exact Hs | auto]. Qed.

Lemma Q_on name fn : pres Q (on name fn).
Proof.
  apply pres_bind; [apply _ | apply pres_get; apply _ | intros; apply Q_set_listeners].
Qed.

Lemma R_startListening : pres (guarded Q) startListening.
Proof.
  apply guarded_intro; [apply listeners_ok_startListening|].
  apply pres_bind; [apply _ | apply pres_get; apply _ | intros; apply Q_on].
Qed.

Lemma R_off : pres (guarded Q) (off "userMessage" FnStartListening).
Proof.
  apply guarded_intro; [apply listeners_ok_off|].
  apply pres_bind; [apply _ | apply pres_get; apply _ | intros; apply Q_set_listeners].
Qed.

Lemma R_ended arg : ends_ok -> pres (guarded Q) (call_listener W FnOnCallEnded arg).
Proof. intros. apply guarded_intro; [intros s Hs; exact Hs | auto]. Qed.

Local Hint Resolve R_perform R_new_Date R_addToCallLog R_noteWhatWasSaid
  R_createResponse R_suspend R_remove_task R_set_pendingSamples
  R_startListening R_off R_ended : pres.

Ltac pres_tac :=
  repeat first
    [ progress intros
    | solve [eauto with pres]
    | apply R_addToCallLog; done
    | apply R_perform; reflexivity
    | apply pres_ret; apply _
    | apply pres_get; apply _
    | apply pres_bind; [apply _ | |]
    | apply pres_for_each; [apply _ | apply Forall_forall]
    | match goal with
      | |- pres _ (if ?b then _ else _) => destruct b
      | |- pres _ (match ?x with _ => _ end) => destruct x
      end ].

Lemma R_pushAudio audio : pres (guarded Q) (pushAudio audio).
Proof. unfold pushAudio. pres_tac. Qed.

Lemma R_pushMeta metadata : pres (guarded Q) (pushMeta metadata).
Proof. unfold pushMeta. pres_tac. Qed.

Local Hint Resolve R_pushAudio R_pushMeta : pres.

Lemma R_end_call : pres (guarded Q) (end_call W).
Proof. unfold end_call. pres_tac. Qed.

Lemma R_profile_finish name startTime :
  pres (guarded Q) (_profileIt_after W name startTime).
Proof. unfold _profileIt_after. pres_tac. Qed.

Local Hint Resolve R_end_call R_profile_finish : pres.

Lemma R_onUserMessage message : pres (guarded Q) (onUserMessage W message).
Proof. unfold onUserMessage. pres_tac. Qed.

Lemma R_handleTool selectedTool : pres (guarded Q) (handleTool W selectedTool).
Proof. unfold handleTool. pres_tac. Qed.

Local Hint Resolve R_onUserMessage R_handleTool : pres.

Lemma R_afterResponse startTime content selectedTool :
  pres (guarded Q) (afterResponse W startTime content selectedTool).
Proof. unfold afterResponse. pres_tac. Qed.

Lemma R_afterSpeech startTime selectedTool audio :
  pres (guarded Q) (afterSpeech W startTime selectedTool audio).
Proof. unfold afterSpeech. pres_tac. Qed.

Lemma emit_emit_to name arg s :
  emit W name arg s = emit_to W (listeners_for name (listeners s)) name arg s.
Proof. reflexivity. Qed.

Lemma R_emit_to ls name arg :
  Forall (fun l => pres (guarded Q) (call_listener W l.2 arg)) ls ->
  pres (guarded Q) (emit_to W ls name arg).
Proof.
  intros Hall. unfold emit_to.
  apply pres_bind; [apply _ | by apply R_perform |]. intros _.
  destruct (_ && _); [apply pres_ret; apply _|].
  apply pres_bind; [apply _ | apply pres_for_each; [apply _ | done] | intros; apply pres_ret; apply _].
Qed.

Lemma R_emit name arg :
  (name = "callEnded" -> ends_ok) -> pres (guarded Q) (emit W name arg).
Proof.
  intros Hends s Hok. unfold exec. rewrite emit_emit_to.
  apply (R_emit_to _ name arg); [|done].
  apply Forall_forall. intros [n fn] Hin.
  apply list_elem_of_filter in Hin as [Hn Hin]. cbn in Hn. subst n.
  destruct (listeners_ok_elem _ _ _ Hok Hin)
    as [[-> ->]|[[-> ->]|[-> [k ->]]]]; cbn [snd call_listener].
  - apply (R_ended arg). by apply Hends.
  - pres_tac.
  - pres_tac.
Qed.

Local Hint Resolve R_afterResponse R_afterSpeech : pres.

Lemma R_handleWebsocket_Audio message :
  pres (guarded Q) (_handleWebsocket_Audio message).
Proof. unfold _handleWebsocket_Audio. pres_tac. Qed.

Lemma R_handleWebsocket_Meta messageString :
  (messageString = "callEnded" -> ends_ok) ->
  pres (guarded Q) (_handleWebsocket_Meta W messageString).
Proof.
  intros. unfold _handleWebsocket_Meta.
  destruct (String.eqb _ _); [pres_tac|].
  apply pres_bind; [apply _ | by apply R_emit | pres_tac].
Qed.

Lemma R_afterTranscribe startTime transcription :
  pres (guarded Q) (afterTranscribe W startTime transcription).
Proof.
  unfold afterTranscribe.
  apply pres_bind; [apply _ | pres_tac | intros _].
  apply pres_bind; [apply _ | by apply R_emit | pres_tac].
Qed.

Lemma R_onClose : ends_ok -> pres (guarded Q) (onClose W).
Proof.
  intros. unfold onClose.
  apply pres_bind; [apply _ | by apply R_emit | pres_tac].
Qed.

Lemma R_begin beep : pres (guarded Q) (begin W beep).
Proof. unfold begin. pres_tac. Qed.

Lemma R_speakFirstMessage firstMessage :
  pres (guarded Q) (speakFirstMessage W firstMessage).
Proof. unfold speakFirstMessage. pres_tac. Qed.

Local Hint Resolve R_speakFirstMessage R_afterTranscribe : pres.

Lemma R_onTimer : pres (guarded Q) (onTimer W).
Proof. unfold onTimer. pres_tac. Qed.

Local Hint Resolve R_onTimer : pres.

Lemma R_resume t o continuation :
  resume W t o = Some continuation -> pres (guarded Q) continuation.
Proof.
  destruct t, o; cbn [resume]; intros [= <-]; pres_tac.
Qed.

Lemma R_handle e :
  (ends_call e = true -> ends_ok) -> pres (guarded Q) (handle W e).
Proof.
  intros Hends.
  destruct e as [beep|[bytes|text]| |id o]; cbn [handle _onWebsocketMessage].
  - apply R_begin.
  - apply R_handleWebsocket_Audio.
  - apply R_handleWebsocket_Meta. intros ->. by apply Hends.
  - apply R_onClose. by apply Hends.
  - apply pres_bind; [apply _ | apply pres_get; apply _ | intros ts].
    destruct (ts !! id) as [t|]; [|apply pres_ret; apply _].
    destruct (resume W t o) as [c|] eqn:Hc; [|apply pres_ret; apply _].
    apply pres_bind; [apply _ | apply R_remove_task | intros _].
    by eapply R_resume.
Qed.

Lemma R_step s e :
  (ends_call e = true -> ends_ok) -> guarded Q s (step W s e).
Proof. intros. by apply R_handle. Qed.

Lemma R_run es : forall s,
  (forall e, e ∈ es -> ends_call e = true -> ends_ok) ->
  guarded Q s (run W s es).
Proof.
  induction es as [|e es IH]; intros s Hends; cbn [run foldl].
  - reflexivity.
  - transitivity (step W s e).
    + apply R_step. apply Hends. left.
    + apply IH. intros e' He'. apply Hends. by right.
Qed.

End Lifting.

(** ** The arrays only grow *)

Lemma insert_push_prefix {A} (m : gmap loc (list A)) (l l' : loc) (x : A) :
  (m !!! l') `prefix_of` (<[l := m !!! l ++ [x]]> m !!! l').
Proof.
  destruct (decide (l = l')) as [->|Hne].
  - rewrite lookup_total_insert_eq. by apply prefix_app_r.
  - by rewrite lookup_total_insert_ne.
Qed.

Lemma extends_perform e : pres extends (perform e).
Proof. intros s. repeat split; try done. cbn. by apply prefix_app_r. Qed.

Lemma extends_push_log l e : pres extends (push_log l e).
Proof. intros s. repeat split; try done. intros l'. apply insert_push_prefix. Qed.

Lemma extends_push_turn l t : pres extends (push_turn l t).
Proof. intros s. repeat split; try done. intros l'. apply insert_push_prefix. Qed.

Lemma extends_same {A} (m : Prog A) :
  (forall s, turnArrays (exec m s) = turnArrays s) ->
  (forall s, logArrays (exec m s) = logArrays s) ->
  (forall s, effects (exec m s) = effects s) ->
  (forall s, history (exec m s) = history s) ->
  (forall s, callLog (exec m s) = callLog s) ->
  pres extends m.
Proof.
  intros Ht Hl He Hh Hc s. unfold extends.
  rewrite Ht, Hl, He, Hh, Hc. done.
Qed.

Section Extends.

Variable W : World.

Lemma extends_new_Date : pres extends (new_Date W).
Proof. by apply extends_same. Qed.

Lemma extends_addToCallLog ev m : pres extends (addToCallLog W ev m).
Proof.
  unfold addToCallLog.
  apply pres_bind; [apply _ | apply extends_new_Date | intros t].
  apply pres_bind; [apply _ | apply pres_get; apply _ | intros l].
  apply extends_push_log.
Qed.

Lemma extends_pushMeta metadata : pres extends (pushMeta metadata).
Proof. apply extends_perform. Qed.

Lemma extends_noteWhatWasSaid sp m : pres extends (noteWhatWasSaid W sp m).
Proof.
  unfold noteWhatWasSaid.
  apply pres_bind; [apply _ | apply extends_addToCallLog | intros _].
  apply pres_bind; [apply _ | | intros _; apply extends_pushMeta].
  apply pres_bind; [apply _ | apply pres_get; apply _ | intros l].
  apply extends_push_turn.
Qed.

Lemma extends_createResponse : pres extends createResponse.
Proof.
  unfold createResponse.
  apply pres_bind; [apply _ | apply pres_get; apply _ | intros l].
  apply pres_bind; [apply _ | apply pres_get; apply _ | intros c].
  apply extends_perform.
Qed.

Lemma extends_ended arg : pres extends (call_listener W FnOnCallEnded arg).
Proof.
  cbn [call_listener].
  apply pres_bind; [apply _ | apply extends_addToCallLog | intros _].
  apply pres_bind; [apply _ | apply pres_get; apply _ | intros l].
  apply pres_bind; [apply _ | apply pres_get; apply _ | intros c].
  apply extends_perform.
Qed.

Lemma extends_run s es : guarded extends s (run W s es).
Proof.
  apply (R_run W extends True).
  - intros e' _. apply extends_perform.
  - apply extends_new_Date.
  - intros ev m _ _. apply extends_addToCallLog.
  - apply extends_noteWhatWasSaid.
  - apply extends_createResponse.
  - intros t. by apply extends_same.
  - intros id. by apply extends_same.
  - intros p. by apply extends_same.
  - intros ls. by apply extends_same.
  - intros _ arg. apply extends_ended.
  - done.
Qed.

Lemma listeners_ok_new a p0 : listeners_ok (new_CallConversation W a p0).
Proof. exists []. split; [reflexivity | constructor]. Qed.

Lemma listeners_ok_run a p0 es :
  listeners_ok (run W (new_CallConversation W a p0) es).
Proof. apply (extends_run _ es), listeners_ok_new. Qed.

End Extends.

(** ** The history is the prompt array *)

Global Instance keeps_preorder (I : State -> Prop) : PreOrder (keeps I).
Proof.
  split; [intros s Hs; exact Hs | intros s1 s2 s3 H12 H23 H; apply H23, H12, H].
Qed.

Lemma noted_snoc log e :
  noted (log ++ [e]) = noted log ++ from_option (fun t => [t]) [] (transcript_turn e).
Proof.
  unfold noted. rewrite omap_app. cbn. by destruct (transcript_turn e).
Qed.

Lemma response_request_ok_snoc a p0 log x e :
  response_request_ok a p0 log e -> response_request_ok a p0 (log ++ [x]) e.
Proof.
  destruct e; try done. intros [Hl (k & Hk & Hc)]. split; [done|].
  exists k. split; [rewrite length_app; lia|]. by rewrite take_app_le.
Qed.

Lemma callLog_of_push_log s x :
  callLog_of (exec (push_log (callLog s) x) s) = callLog_of s ++ [x].
Proof. unfold callLog_of. cbn. by rewrite lookup_total_insert_eq. Qed.

Lemma history_of_push_turn s t :
  history_of (exec (push_turn (history s) t) s) = history_of s ++ [t].
Proof. unfold history_of. cbn. by rewrite lookup_total_insert_eq. Qed.

Section History.

Variable W : World.
Variable a : Assistant.
Variable p0 : list Turn.

Lemma history_inv_perform e :
  plain e = true -> pres (keeps (history_inv a p0)) (perform e).
Proof.
  intros He s (Ha & Hh & Hc & Hall). repeat split; try done.
  cbn. apply Forall_app. split; [done|]. apply Forall_singleton.
  by destruct e.
Qed.

Lemma history_inv_same {A} (m : Prog A) :
  (forall s, turnArrays (exec m s) = turnArrays s) ->
  (forall s, logArrays (exec m s) = logArrays s) ->
  (forall s, effects (exec m s) = effects s) ->
  (forall s, history (exec m s) = history s) ->
  (forall s, callLog (exec m s) = callLog s) ->
  (forall s, assistant (exec m s) = assistant s) ->
  pres (keeps (history_inv a p0)) m.
Proof.
  intros Ht Hl He Hh Hc Ha s. unfold keeps, history_inv, history_of, callLog_of.
  by rewrite Ht, Hl, He, Hh, Hc, Ha.
Qed.

(** Appending a log entry that is no transcript. *)
Lemma history_inv_log s x :
  transcript_turn x = None ->
  history_inv a p0 s ->
  history_inv a p0 (exec (push_log (callLog s) x) (exec (new_Date W) s)).
Proof.
  intros Hx (Ha & Hh & Hc & Hall).
  assert (callLog_of (exec (push_log (callLog s) x) (exec (new_Date W) s))
          = callLog_of s ++ [x]) as Hlog.
  { unfold callLog_of. cbn. by rewrite lookup_total_insert_eq. }
  unfold history_inv. rewrite Hlog. split; [done|]. split; [done|]. split.
  - rewrite noted_snoc, Hx. cbn. rewrite app_nil_r. exact Hc.
  - eapply Forall_impl; [exact Hall|]. intros e. apply response_request_ok_snoc.
Qed.

Lemma history_inv_addToCallLog ev m :
  ev <> "TRANSCRIPT" -> pres (keeps (history_inv a p0)) (addToCallLog W ev m).
Proof.
  intros Hev s Hs. apply (history_inv_log s); [|done].
  unfold transcript_turn. cbn. by apply String.eqb_neq in Hev as ->.
Qed.

Lemma history_inv_noteWhatWasSaid sp m :
  pres (keeps (history_inv a p0)) (noteWhatWasSaid W sp m).
Proof.
  intros s (Ha & Hh & Hc & Hall).
  set (x := {| timestamp := toISOString W (clock W (dateCalls s));
               event := "TRANSCRIPT"; meta := MetaTranscript sp m |}).
  set (t := {| role := sp; content := m |}).
  assert (history_of (exec (noteWhatWasSaid W sp m) s) = history_of s ++ [t]) as Hhist.
  { unfold history_of. cbn. by rewrite lookup_total_insert_eq. }
  assert (callLog_of (exec (noteWhatWasSaid W sp m) s) = callLog_of s ++ [x]) as Hlog.
  { unfold callLog_of. cbn. by rewrite lookup_total_insert_eq. }
  unfold history_inv. rewrite Hhist, Hlog. repeat split; try done.
  - rewrite noted_snoc, Hc. cbn. by rewrite app_assoc.
  - cbn. apply Forall_app. split; [|by apply Forall_singleton].
    eapply Forall_impl; [done|]. intros e. apply response_request_ok_snoc.
Qed.

Lemma history_inv_createResponse : pres (keeps (history_inv a p0)) createResponse.
Proof.
  intros s (Ha & Hh & Hc & Hall). repeat split; try done.
  cbn. apply Forall_app. split; [done|]. apply Forall_singleton.
  split; [done|]. exists (length (callLog_of s)). split; [done|].
  by rewrite take_ge.
Qed.

Lemma history_inv_ended arg :
  pres (keeps (history_inv a p0)) (call_listener W FnOnCallEnded arg).
Proof.
  intros s Hs. cbn [call_listener].
  rewrite exec_bind.
  pose proof (history_inv_addToCallLog "CALL_ENDED" MetaUndefined ltac:(done) s Hs)
    as (Ha & Hh & Hc & Hall).
  repeat split; try done.
  cbn. apply Forall_app. split; [done | by apply Forall_singleton].
Qed.

Lemma history_inv_run s es :
  guarded (keeps (history_inv a p0)) s (run W s es).
Proof.
  apply (R_run W (keeps (history_inv a p0)) True).
  - apply history_inv_perform.
  - by apply history_inv_same.
  - intros ev m _ Hev. by apply history_inv_addToCallLog.
  - apply history_inv_noteWhatWasSaid.
  - apply history_inv_createResponse.
  - intros t. by apply history_inv_same.
  - intros id. by apply history_inv_same.
  - intros p. by apply history_inv_same.
  - intros ls. by apply history_inv_same.
  - intros _ arg. apply history_inv_ended.
  - done.
Qed.

Lemma history_inv_new : history_inv a p0 (new_CallConversation W a p0).
Proof.
  split; [done|]. split; [done|]. split; [|constructor].
  unfold history_of, callLog_of. cbn.
  rewrite lookup_total_singleton_eq, lookup_total_insert_eq.
  rewrite lookup_total_singleton_eq. cbn. by rewrite app_nil_r.
Qed.

Lemma history_inv_session es :
  history_inv a p0 (run W (new_CallConversation W a p0) es).
Proof.
  apply (history_inv_run _ es); [apply listeners_ok_new | apply history_inv_new].
Qed.

End History.

(** ** The end of the call *)

Global Instance same_ends_preorder : PreOrder same_ends.
Proof.
  split.
  - by intros s.
  - intros s1 s2 s3 (?&?&?) (?&?&?). repeat split; congruence.
Qed.

Lemma same_ends_same {A} (m : Prog A) :
  (forall s, logArrays (exec m s) = logArrays s) ->
  (forall s, effects (exec m s) = effects s) ->
  (forall s, callLog (exec m s) = callLog s) ->
  pres same_ends m.
Proof.
  intros Hl He Hc s. unfold same_ends, ended_entries, onEnd_calls, callLog_of.
  by rewrite Hl, He, Hc.
Qed.

Lemma same_ends_perform e : is_OnEnd e = false -> pres same_ends (perform e).
Proof.
  intros He s. repeat split. unfold onEnd_calls. cbn.
  rewrite filter_app, filter_cons_False, filter_nil by (rewrite He; done).
  apply app_nil_r.
Qed.

Lemma ended_entries_push s s' x :
  callLog s' = callLog s ->
  logArrays s' = <[callLog s := callLog_of s ++ [x]]> (logArrays s) ->
  event x <> "CALL_ENDED" ->
  ended_entries s' = ended_entries s.
Proof.
  intros Hc Hl Hx. unfold ended_entries, callLog_of. rewrite Hc, Hl.
  rewrite lookup_total_insert_eq, filter_app, filter_cons_False, filter_nil by done.
  apply app_nil_r.
Qed.

Section Ends.

Variable W : World.

Lemma same_ends_addToCallLog ev m :
  ev <> "CALL_ENDED" -> pres same_ends (addToCallLog W ev m).
Proof.
  intros Hev s. split; [done|]. split; [|done].
  by eapply ended_entries_push.
Qed.

Lemma same_ends_noteWhatWasSaid sp m : pres same_ends (noteWhatWasSaid W sp m).
Proof.
  intros s. split; [done|]. split.
  - by eapply ended_entries_push.
  - unfold onEnd_calls. cbn.
    rewrite filter_app, filter_cons_False, filter_nil by done. apply app_nil_r.
Qed.

Lemma same_ends_createResponse : pres same_ends createResponse.
Proof. intros s. by apply (same_ends_perform (CreateResponse _ _)). Qed.

Lemma same_ends_run s es :
  (forall e, e ∈ es -> ends_call e = false) ->
  guarded same_ends s (run W s es).
Proof.
  intros Hes. apply (R_run W same_ends False).
  - intros e He. apply same_ends_perform. by destruct e.
  - by apply same_ends_same.
  - intros ev m Hev _. by apply same_ends_addToCallLog.
  - apply same_ends_noteWhatWasSaid.
  - apply same_ends_createResponse.
  - intros t. by apply same_ends_same.
  - intros id. by apply same_ends_same.
  - intros p. by apply same_ends_same.
  - intros ls. by apply same_ends_same.
  - done.
  - intros e He Hends. rewrite (Hes e He) in Hends. done.
Qed.

(** *** What single events do in a session *)

Lemma exec_emit {B} name arg (k : bool -> Prog B) s :
  exec (bind (emit W name arg) k) s =
  exec (bind (emit_to W (listeners_for name (listeners s)) name arg) k) s.
Proof. reflexivity. Qed.

Lemma step_close s :
  listeners_ok s ->
  step W s WsClosed =
  exec (perform (Emit "callEnded" None) >>
        call_listener W FnOnCallEnded None >>
        perform SttDestroy) s.
Proof.
  intros Hok. unfold step. cbn [handle]. unfold onClose.
  rewrite exec_emit, listeners_for_callEnded by done.
  unfold emit_to. by rewrite (bool_decide_eq_false_2 ("callEnded" = "error")).
Qed.

Lemma step_text s text :
  text <> END_OF_SPEECH_TOKEN ->
  step W s (WsMessage (OtherMsg text)) =
  exec (let* returned := emit_to W (listeners_for text (listeners s)) text None in
        if returned
        then perform (ConsoleError "Unknown message type:" text)
        else perform (UnhandledRejection "ERR_UNHANDLED_ERROR")) s.
Proof.
  intros Hne. unfold step. cbn [handle _onWebsocketMessage].
  unfold _handleWebsocket_Meta.
  apply String.eqb_neq in Hne as ->. by rewrite exec_emit.
Qed.

Lemma step_EOS s :
  step W s (WsMessage (OtherMsg END_OF_SPEECH_TOKEN)) =
  exec (if (0 <? length (pendingSamples s))%nat
        then
          let* startTime := _profileIt_before W in
          match combineAudio (pendingSamples s) with
          | Some combinedAudio =>
              perform (SttTranscribe combinedAudio) >>
              suspend (AwaitTranscribe startTime)
          | None => perform (UnhandledRejection "RangeError")
          end
        else perform (ConsoleWarn "GOT EOS but no audio")) s.
Proof. reflexivity. Qed.

Lemma step_INT s :
  listeners_ok s ->
  step W s (WsMessage (OtherMsg "INT")) =
  exec (perform (Emit "INT" None) >>
        call_listener W FnOnInterrupt None >>
        perform (ConsoleError "Unknown message type:" "INT")) s.
Proof.
  intros Hok. rewrite step_text, listeners_for_INT by done.
  unfold emit_to. by rewrite (bool_decide_eq_false_2 ("INT" = "error")).
Qed.

Lemma step_unknown s text :
  listeners_ok s ->
  text <> "EOS" -> text <> "INT" -> text <> "callEnded" ->
  text <> "userMessage" -> text <> "error" ->
  step W s (WsMessage (OtherMsg text)) =
  exec (perform (Emit text None) >>
        perform (ConsoleError "Unknown message type:" text)) s.
Proof.
  intros Hok H1 H2 H3 H4 H5. rewrite step_text, listeners_for_other by done.
  unfold emit_to. by rewrite (bool_decide_eq_false_2 _ H5).
Qed.

End Ends.

(** ** Frames in and out *)

Lemma effects_for_each_perform (es : list Effect) : forall s,
  effects (exec (for_each perform es) s) = effects s ++ es.
Proof.
  induction es as [|e es IH]; intros s; cbn [for_each].
  - by rewrite app_nil_r.
  - rewrite exec_bind, IH. cbn. by rewrite <- app_assoc.
Qed.

Lemma for_each_map {A B} (f : B -> Prog unit) (g : A -> B) (l : list A) s :
  for_each (fun a => f (g a)) l s = for_each f (map g l) s.
Proof.
  revert s. induction l as [|a l IH]; intros s; [done|].
  cbn [for_each map]. unfold bind. by rewrite IH.
Qed.

(** C5: [pushAudio] sends the buffer as consecutive slices of 1024 samples,
    in order: the k-th frame sent is the slice that starts at sample
    [k * 1024], it is the last one when fewer than 1024 samples remain, and
    the frames sent, put end to end, are the buffer. *)
Theorem pushAudio_sends_consecutive_chunks (audio : list sample) (s : State) :
  let frames := pushAudio_frames audio in
  effects (exec (pushAudio audio) s)
    = effects s ++ map (fun c => WsSend (AudioFrame c)) frames /\
  concat frames = audio /\
  (forall k, frames !! k =
     if (k * CHUNK <? length audio)%nat
     then Some (take CHUNK (drop (k * CHUNK) audio))
     else None) /\
  (forall k c, frames !! k = Some c ->
     length c = Nat.min CHUNK (length audio - k * CHUNK) /\
     (0 < length c)%nat /\
     (S k < length frames -> length c = CHUNK)%nat).
Proof.
  intros frames.
  assert (forall k, frames !! k =
     if (k * CHUNK <? length audio)%nat
     then Some (take CHUNK (drop (k * CHUNK) audio))
     else None) as Hlook.
  { intros k. unfold frames, pushAudio_frames.
    rewrite pushAudio_loop_lookup by lia. done. }
  split; [|split; [|split]].
  - unfold pushAudio, exec. rewrite for_each_map.
    apply effects_for_each_perform.
  - unfold frames, pushAudio_frames.
    rewrite pushAudio_loop_concat by lia. done.
  - exact Hlook.
  - intros k c Hk. pose proof Hk as Hk'. rewrite Hlook in Hk'.
    destruct (Nat.ltb_spec (k * CHUNK) (length audio)) as [Hlt|]; [|done].
    injection Hk' as <-. rewrite length_take, length_drop.
    split; [done|]. split; [pose proof CHUNK_pos; lia|].
    intros Hnext. apply lookup_lt_is_Some_2 in Hnext as [c' Hc'].
    rewrite Hlook in Hc'.
    destruct (Nat.ltb_spec (S k * CHUNK) (length audio)); [lia|done].
Qed.

Lemma float32_words_length n : forall bs : list byte,
  length bs = 4 * n -> length (float32_words bs) = n.
Proof.
  induction n as [|n IH]; intros bs Hlen.
  - by destruct bs.
  - destruct bs as [|b0 [|b1 [|b2 [|b3 rest]]]]; cbn in Hlen; try lia.
    cbn [float32_words length]. f_equal. apply IH. lia.
Qed.

Lemma Float32Array_of_buffer_whole n (bs : list byte) :
  length bs = 4 * n -> Float32Array_of_buffer bs = Some (float32_words bs).
Proof.
  intros Hlen. unfold Float32Array_of_buffer. rewrite Hlen.
  replace (4 * n) with (n * 4) by lia. by rewrite Nat.Div0.mod_mul.
Qed.

Create HintDb buffer.

Global Instance same_buffer_preorder : PreOrder same_buffer.
Proof.
  split; [by intros s | intros s1 s2 s3 H12 H23].
  unfold same_buffer in *. congruence.
Qed.

Section Frames.

Variable W : World.

Lemma run_audio_frames (frames : list (list byte)) : forall s,
  Forall (fun f => length f = 4 * CHUNK) frames ->
  let s' := run W s (map (fun f => WsMessage (ArrayBufferMsg f)) frames) in
  pendingSamples s' = pendingSamples s ++ map float32_words frames /\
  effects s' = effects s.
Proof.
  induction frames as [|f frames IH]; intros s Hall; cbn [run foldl map].
  - by rewrite app_nil_r.
  - inversion Hall as [|? ? Hf Hrest]; subst.
    destruct (IH (step W s (WsMessage (ArrayBufferMsg f))) Hrest) as [Hp He].
    unfold run in Hp, He. rewrite Hp, He.
    unfold step. cbn [handle _onWebsocketMessage]. unfold _handleWebsocket_Audio.
    rewrite (Float32Array_of_buffer_whole CHUNK) by done. cbn.
    by rewrite <- app_assoc.
Qed.

Lemma eos_uniform s :
  pendingSamples s <> [] ->
  Forall (fun c => length c = CHUNK) (pendingSamples s) ->
  let s' := step W s (WsMessage (OtherMsg "EOS")) in
  effects s' = effects s ++ [SttTranscribe (concat (pendingSamples s))] /\
  pendingSamples s' = pendingSamples s.
Proof.
  intros Hne Hall s'. unfold s'.
  change (WsMessage (OtherMsg "EOS")) with (WsMessage (OtherMsg END_OF_SPEECH_TOKEN)).
  rewrite step_EOS.
  destruct (pendingSamples s) as [|c data] eqn:Hp; [done|].
  cbn [length Nat.ltb Nat.leb]. rewrite exec_bind.
  rewrite (combineAudio_uniform _ Hall). done.
Qed.

(** *** What leaves the pending audio alone *)

Lemma same_buffer_fields {A} (m : Prog A) :
  (forall s, pendingSamples (exec m s) = pendingSamples s) ->
  pres same_buffer m.
Proof. intros H s. apply H. Qed.

Ltac buffer_tac :=
  repeat first
    [ progress intros
    | solve [eauto with buffer]
    | apply same_buffer_fields; intros; reflexivity
    | apply pres_ret; apply _
    | apply pres_get; apply _
    | apply pres_bind; [apply _ | |]
    | match goal with
      | |- pres _ (if ?b then _ else _) => destruct b
      | |- pres _ (match ?x with _ => _ end) => destruct x
      end ].

Lemma same_buffer_pushAudio audio : pres same_buffer (pushAudio audio).
Proof.
  unfold pushAudio. apply pres_for_each; [apply _|].
  apply Forall_forall. intros c _. by apply same_buffer_fields.
Qed.

Local Hint Resolve same_buffer_pushAudio : buffer.

Lemma same_buffer_handleTool selectedTool :
  pres same_buffer (handleTool W selectedTool).
Proof. unfold handleTool, end_call. buffer_tac. Qed.

Local Hint Resolve same_buffer_handleTool : buffer.

Lemma same_buffer_call_listener fn arg :
  pres same_buffer (call_listener W fn arg).
Proof. destruct fn; by apply same_buffer_fields. Qed.

Lemma same_buffer_emit name arg : pres same_buffer (emit W name arg).
Proof.
  unfold emit. apply pres_bind; [apply _ | apply pres_get; apply _ | intros ls].
  unfold emit_to. apply pres_bind; [apply _ | by apply same_buffer_fields | intros _].
  destruct (_ && _); [apply pres_ret; apply _|].
  apply pres_bind; [apply _ | | intros; apply pres_ret; apply _].
  apply pres_for_each; [apply _|]. apply Forall_forall. intros l _.
  apply same_buffer_call_listener.
Qed.

Local Hint Resolve same_buffer_emit : buffer.

Lemma same_buffer_resume t o continuation :
  (forall transcription, o <> Transcribed transcription) ->
  resume W t o = Some continuation ->
  pres same_buffer continuation.
Proof.
  intros Ho.
  destruct t, o; cbn [resume]; intros [= <-];
    try (by exfalso; eapply Ho);
    unfold onTimer, afterResponse, afterSpeech, speakFirstMessage; buffer_tac.
Qed.

Lemma same_buffer_handle e :
  keeps_utterance e ->
  (forall buffer, e <> WsMessage (ArrayBufferMsg buffer)) ->
  pres same_buffer (handle W e).
Proof.
  intros Hk Hne.
  destruct e as [beep|[buffer|text]| |id o]; cbn [handle _onWebsocketMessage].
  - unfold begin. buffer_tac.
  - by exfalso; eapply Hne.
  - unfold _handleWebsocket_Meta. buffer_tac.
  - unfold onClose. buffer_tac.
  - apply pres_bind; [apply _ | apply pres_get; apply _ | intros ts].
    destruct (ts !! id) as [t|]; [|apply pres_ret; apply _].
    destruct (resume W t o) as [c|] eqn:Hc; [|apply pres_ret; apply _].
    apply pres_bind; [apply _ | by apply same_buffer_fields | intros _].
    eapply same_buffer_resume; [|exact Hc].
    intros transcription ->. exact Hk.
Qed.

Lemma step_received s e :
  keeps_utterance e ->
  pendingSamples (step W s e) = pendingSamples s ++ received_chunk e /\
  Forall (fun c => length c = CHUNK) (received_chunk e).
Proof.
  intros Hk.
  assert ((exists buffer, e = WsMessage (ArrayBufferMsg buffer)) \/
          ((forall buffer, e <> WsMessage (ArrayBufferMsg buffer)) /\
           received_chunk e = [])) as [[buffer ->]|[Hne Hnil]].
  { destruct e as [beep|[buffer|text]| |id o]; try (by right).
    left. by eexists. }
  - cbn in Hk. split.
    + unfold step. cbn [handle _onWebsocketMessage]. unfold _handleWebsocket_Audio.
      by rewrite (Float32Array_of_buffer_whole CHUNK).
    + apply Forall_singleton. by apply float32_words_length.
  - rewrite Hnil. split; [|constructor]. rewrite app_nil_r.
    by apply (same_buffer_handle e Hk).
Qed.

Lemma run_received (es : list Event) : forall s,
  Forall keeps_utterance es ->
  pendingSamples (run W s es) = pendingSamples s ++ received_chunks es /\
  Forall (fun c => length c = CHUNK) (received_chunks es).
Proof.
  induction es as [|e es IH]; intros s Hall; cbn [run foldl].
  - split; [by rewrite app_nil_r | constructor].
  - inversion Hall as [|? ? He Hes]; subst.
    destruct (step_received s e He) as [Hp Hc].
    destruct (IH (step W s e) Hes) as [Hp' Hc']. unfold run in Hp'.
    unfold received_chunks. cbn [map concat]. split.
    + rewrite Hp', Hp. by rewrite <- app_assoc.
    + apply Forall_app. by split.
Qed.

(** C1, amended: take any events of a session that start from an empty
    pending buffer, among them at least one binary frame, every binary
    frame holding 1024 samples (4096 bytes), and none of them the return of
    a transcription.  The text frame "EOS" that comes next hands to
    [transcribe] the concatenation, sample by sample and in arrival order,
    of the chunks of those binary frames. *)
Theorem transcription_input_is_concatenation
    (s : State) (es : list Event) :
  pendingSamples s = [] ->
  Forall keeps_utterance es ->
  received_chunks es <> [] ->
  let s1 := run W s es in
  let s' := step W s1 (WsMessage (OtherMsg "EOS")) in
  Forall (fun c => length c = CHUNK) (received_chunks es) /\
  pendingSamples s1 = received_chunks es /\
  effects s' = effects s1 ++ [SttTranscribe (concat (received_chunks es))].
Proof.
  intros Hempty Hall Hne s1 s'.
  destruct (run_received es s Hall) as [Hp Hc]. fold s1 in Hp.
  rewrite Hempty in Hp. cbn [app] in Hp.
  split; [done|]. split; [done|].
  destruct (eos_uniform s1) as [He _]; [by rewrite Hp | by rewrite Hp |].
  fold s' in He. by rewrite He, Hp.
Qed.

(** C4: "EOS" on an empty pending buffer records the one warning and
    changes nothing else: no event is emitted, nothing is sent, the buffer
    stays empty, and the arrays, the listeners and the pending tasks stay
    as they were. *)
Theorem eos_on_empty_buffer (s : State) :
  pendingSamples s = [] ->
  let s' := step W s (WsMessage (OtherMsg "EOS")) in
  effects s' = effects s ++ [ConsoleWarn "GOT EOS but no audio"] /\
  pendingSamples s' = [] /\
  turnArrays s' = turnArrays s /\ logArrays s' = logArrays s /\
  history s' = history s /\ callLog s' = callLog s /\
  listeners s' = listeners s /\ tasks s' = tasks s /\
  nextTask s' = nextTask s /\ dateCalls s' = dateCalls s.
Proof.
  intros Hempty s'. unfold s'.
  change (WsMessage (OtherMsg "EOS")) with (WsMessage (OtherMsg END_OF_SPEECH_TOKEN)).
  rewrite step_EOS, Hempty. cbn. by rewrite Hempty.
Qed.

End Frames.

(** ** The layout of the buffer built on "EOS" *)

Lemma last_writer_None (data : list chunk) : forall i p,
  last_writer data i p = None ->
  forall j c, data !! j = Some c ->
  ~ ((i + j) * CHUNK <= p < (i + j) * CHUNK + length c).
Proof.
  induction data as [|c0 rest IH]; intros i p Hnone j c Hj; [done|].
  cbn [last_writer] in Hnone.
  destruct (last_writer rest (S i) p) eqn:Hrest; [done|].
  destruct j as [|j]; cbn in Hj.
  - injection Hj as ->. rewrite Nat.add_0_r. intros [H1 H2].
    destruct (Nat.leb_spec (i * CHUNK) p); [|lia].
    destruct (Nat.ltb_spec p (i * CHUNK + length c)); [|lia].
    cbn [andb] in Hnone. apply lookup_ge_None_1 in Hnone. lia.
  - replace (i + S j) with (S i + j) by lia. by eapply IH.
Qed.

Lemma last_writer_Some (data : list chunk) : forall i p v,
  last_writer data i p = Some v ->
  exists j c,
    data !! j = Some c /\
    (i + j) * CHUNK <= p < (i + j) * CHUNK + length c /\
    c !! (p - (i + j) * CHUNK) = Some v /\
    forall j' c', j < j' -> data !! j' = Some c' ->
      ~ ((i + j') * CHUNK <= p < (i + j') * CHUNK + length c').
Proof.
  induction data as [|c0 rest IH]; intros i p v Hsome; [done|].
  cbn [last_writer] in Hsome.
  destruct (last_writer rest (S i) p) as [v'|] eqn:Hrest.
  - injection Hsome as ->.
    destruct (IH _ _ _ Hrest) as (j & c & Hj & Hcov & Hv & Hlater).
    exists (S j), c. replace (i + S j) with (S i + j) by lia.
    repeat split; try done; try lia.
    intros [|j'] c' Hlt Hj'; [lia|]. cbn in Hj'.
    replace (i + S j') with (S i + j') by lia. apply Hlater; [lia|done].
  - destruct (Nat.leb_spec (i * CHUNK) p); [|done].
    destruct (Nat.ltb_spec p (i * CHUNK + length c0)); [|done].
    cbn [andb] in Hsome. exists 0, c0. rewrite Nat.add_0_r.
    repeat split; try done.
    intros [|j'] c' Hlt Hj'; [lia|]. cbn in Hj'.
    replace (i + S j') with (S i + j') by lia.
    by eapply last_writer_None.
Qed.

Lemma copy_chunks_None (data : list chunk) : forall i buf,
  copy_chunks data i buf = None ->
  exists j c, data !! j = Some c /\ length buf < (i + j) * CHUNK + length c.
Proof.
  induction data as [|c rest IH]; intros i buf; cbn [copy_chunks]; [done|].
  destruct (Float32Array_set buf c (i * CHUNK)) as [buf1|] eqn:Hset.
  - intros Hrest. destruct (IH _ _ Hrest) as (j & c' & Hj & Hlen).
    exists (S j), c'. split; [done|].
    rewrite (Float32Array_set_length _ _ _ _ Hset) in Hlen. lia.
  - intros _. exists 0, c. split; [done|].
    unfold Float32Array_set in Hset.
    destruct (Nat.leb_spec (i * CHUNK + length c) (length buf)); [done|lia].
Qed.

Lemma combineAudio_None (data : list chunk) :
  combineAudio data = None <->
  exists i c, data !! i = Some c /\ length data * CHUNK < i * CHUNK + length c.
Proof.
  unfold combineAudio, Float32Array_zeros. split.
  - intros Hnone. destruct (copy_chunks_None _ _ _ Hnone) as (j & c & Hj & Hlen).
    rewrite length_replicate in Hlen. by exists j, c.
  - intros (i & c & Hi & Hlen).
    destruct (copy_chunks data 0 _) as [buf|] eqn:Hsome; [|done].
    assert (is_Some (copy_chunks data 0 (replicate (length data * CHUNK) 0%Z)))
      as Hok by (by eexists).
    rewrite copy_chunks_is_Some in Hok. specialize (Hok i c Hi).
    rewrite length_replicate in Hok. cbn in Hok. lia.
Qed.

Lemma combineAudio_Some (data : list chunk) buf :
  combineAudio data = Some buf ->
  length buf = length data * CHUNK /\
  (forall i c, data !! i = Some c -> i * CHUNK + length c <= length data * CHUNK) /\
  (forall p, p < length data * CHUNK ->
     buf !! p = Some (default 0%Z (last_writer data 0 p))).
Proof.
  unfold combineAudio, Float32Array_zeros. intros Hsome.
  destruct (copy_chunks_spec _ _ _ _ Hsome) as [Hlen Hlook].
  rewrite length_replicate in Hlen. split; [done|]. split.
  - intros i c Hi.
    assert (is_Some (copy_chunks data 0 (replicate (length data * CHUNK) 0%Z)))
      as Hok by (by eexists).
    rewrite copy_chunks_is_Some in Hok. specialize (Hok i c Hi).
    rewrite length_replicate in Hok. cbn in Hok. lia.
  - intros p Hp. rewrite Hlook.
    destruct (last_writer data 0 p); [done|]. cbn.
    by apply lookup_replicate_2.
Qed.

Section Layout.

Variable W : World.

(** C9, amended: "EOS" with [n > 0] buffered chunks either hands to
    [transcribe] a buffer of exactly [n * 1024] samples or fails in the
    copy step, and it fails exactly when some chunk does not fit behind its
    offset, as a final chunk of more than 1024 samples does not.  Chunk [i]
    is copied from offset [i * 1024] on and later copies overwrite earlier
    ones: every position holds the sample of the last chunk copied over it,
    and zero where no chunk was.  So the samples of chunk [i] lie from
    offset [i * 1024] on wherever no later chunk was copied over them, a
    chunk of more than 1024 samples reaching into the positions of its
    successors; and behind a chunk of fewer than 1024 samples the positions
    up to the next offset hold zero wherever no earlier chunk reached. *)
Theorem eos_buffer_layout (s : State) :
  let data := pendingSamples s in
  let n := length data in
  0 < n ->
  let s' := step W s (WsMessage (OtherMsg "EOS")) in
  match combineAudio data with
  | Some buf =>
      effects s' = effects s ++ [SttTranscribe buf] /\
      length buf = n * CHUNK /\
      (forall p, p < n * CHUNK ->
         buf !! p = Some (default 0%Z (last_writer data 0 p))) /\
      (forall i c k, data !! i = Some c -> k < length c ->
         (forall j c', i < j -> data !! j = Some c' ->
            ~ (j * CHUNK <= i * CHUNK + k < j * CHUNK + length c')) ->
         buf !! (i * CHUNK + k) = c !! k) /\
      (forall i c p, data !! i = Some c -> length c < CHUNK ->
         i * CHUNK + length c <= p < (i + 1) * CHUNK ->
         (forall j c', j < i -> data !! j = Some c' ->
            j * CHUNK + length c' <= p) ->
         buf !! p = Some 0%Z)
  | None =>
      effects s' = effects s ++ [UnhandledRejection "RangeError"]
  end /\
  (combineAudio data = None <->
   exists i c, data !! i = Some c /\ n * CHUNK < i * CHUNK + length c) /\
  (forall c, last data = Some c -> CHUNK < length c ->
     combineAudio data = None).
Proof.
  intros data n Hn s'. split; [|split].
  - unfold s'.
    change (WsMessage (OtherMsg "EOS"))
      with (WsMessage (OtherMsg END_OF_SPEECH_TOKEN)).
    rewrite step_EOS. fold data. fold n.
    destruct (Nat.ltb_spec 0 n); [|lia]. rewrite exec_bind.
    cbn [_profileIt_before new_Date fst].
    destruct (combineAudio data) as [buf|] eqn:Hbuf; [|done].
    destruct (combineAudio_Some _ _ Hbuf) as (Hlen & Hfit & Hlook).
    fold n in Hlen, Hlook, Hfit.
    split; [done|]. split; [done|]. split; [done|]. split.
    + intros i c k Hi Hk Hlater.
      pose proof (Hfit i c Hi) as Hfiti.
      rewrite Hlook by lia.
      destruct (lookup_lt_is_Some_2 c k Hk) as [v Hv]. rewrite Hv. f_equal.
      destruct (last_writer data 0 (i * CHUNK + k)) as [v'|] eqn:Hw.
      * destruct (last_writer_Some _ _ _ _ Hw) as (j & c' & Hj & Hcov & Hv' & Hno).
        cbn [Nat.add] in Hcov, Hv', Hno.
        destruct (Nat.lt_trichotomy i j) as [Hij|[->|Hji]].
        -- exfalso. by apply (Hlater j c' Hij Hj).
        -- assert (c' = c) as -> by congruence.
           replace (j * CHUNK + k - j * CHUNK) with k in Hv' by lia.
           cbn. congruence.
        -- exfalso. apply (Hno i c Hji Hi). lia.
      * exfalso. apply (last_writer_None _ _ _ Hw i c Hi). cbn [Nat.add]. lia.
    + intros i c p Hi Hshort Hp Hearlier.
      assert (i < n) as Hin by (by apply lookup_lt_Some in Hi).
      rewrite Hlook by (unfold CHUNK in *; lia).
      destruct (last_writer data 0 p) as [v|] eqn:Hw; [|done].
      exfalso.
      destruct (last_writer_Some _ _ _ _ Hw) as (j & c' & Hj & Hcov & _ & _).
      cbn [Nat.add] in Hcov.
      destruct (Nat.lt_trichotomy i j) as [Hij|[->|Hji]].
      * unfold CHUNK in *. lia.
      * assert (c' = c) as -> by congruence. lia.
      * specialize (Hearlier j c' Hji Hj). lia.
  - apply combineAudio_None.
  - intros c Hlast Hlong. apply combineAudio_None.
    exists (pred n), c. rewrite last_lookup in Hlast. split; [done|].
    unfold n, CHUNK in *. lia.
Qed.

End Layout.

(** ** Properties of whole sessions *)

Section Sessions.

Variable W : World.
Variable a : Assistant.
Variable p0 : list Turn.

Lemma extends_pushAudio audio : pres extends (pushAudio audio).
Proof.
  unfold pushAudio. apply pres_for_each; [apply _|].
  apply Forall_forall. intros c _. apply extends_perform.
Qed.

Lemma extends_handleTool selectedTool : pres extends (handleTool W selectedTool).
Proof.
  unfold handleTool. apply pres_bind; [apply _ | | intros _].
  { destruct (truthy selectedTool);
      [apply extends_addToCallLog | apply pres_ret; apply _]. }
  destruct (bool_decide _).
  - apply pres_bind; [apply _ | apply extends_pushMeta | intros _].
    apply pres_bind; [apply _ | | intros _; by apply extends_same].
    apply pres_bind; [apply _ | apply extends_pushAudio | intros _].
    apply extends_perform.
  - destruct (truthy selectedTool); [apply extends_perform | apply pres_ret; apply _].
Qed.

(** C6: logging, transcript noting, the interrupt listener, the listener of
    [callEnded] and the hangup handling only append to the arrays of the
    session, and so does every event of a session: [history] and [callLog]
    stay the same arrays, what they held stays in place as a prefix of what
    they hold afterwards, and the length of [callLog] never decreases. *)
Theorem history_and_callLog_only_grow (es es' : list Event) :
  (forall s ev m, extends s (exec (addToCallLog W ev m) s)) /\
  (forall s speaker message,
     extends s (exec (noteWhatWasSaid W speaker message) s)) /\
  (forall s arg, extends s (exec (call_listener W FnOnInterrupt arg) s)) /\
  (forall s arg, extends s (exec (call_listener W FnOnCallEnded arg) s)) /\
  (forall s selectedTool, extends s (exec (handleTool W selectedTool) s)) /\
  let s := run W (new_CallConversation W a p0) es in
  let s' := run W s es' in
  history s' = history s /\ callLog s' = callLog s /\
  history_of s `prefix_of` history_of s' /\
  callLog_of s `prefix_of` callLog_of s' /\
  length (callLog_of s) <= length (callLog_of s').
Proof.
  split; [intros; apply extends_addToCallLog|].
  split; [intros; apply extends_noteWhatWasSaid|].
  split; [intros; apply extends_noteWhatWasSaid|].
  split; [intros; apply extends_ended|].
  split; [intros; apply extends_handleTool|].
  intros s s'.
  destruct (extends_run W s es' (listeners_ok_run W a p0 es))
    as (_ & Hh & Hc & Ht & Hl & _).
  fold s' in Hh, Hc, Ht, Hl.
  assert (callLog_of s `prefix_of` callLog_of s') as Hlog.
  { unfold callLog_of. rewrite Hc. apply Hl. }
  repeat split; try done.
  - unfold history_of. rewrite Hh. apply Ht.
  - by apply prefix_length.
Qed.

(** C7: in every state of a session, the text frame "INT" appends the one
    turn [{user, "[Interrupted your last message]"}] to [history] and one
    [TRANSCRIPT] entry to [callLog]; what leaves the module is the echo of
    that turn and the diagnostic, so no "CLR" is sent and nothing is
    transcribed; the pending audio and the pending tasks stay as they are. *)
Theorem interrupt_notes_one_turn (es : list Event) :
  let s := run W (new_CallConversation W a p0) es in
  let s' := step W s (WsMessage (OtherMsg "INT")) in
  history_of s' = history_of s ++
    [ {| role := "user"; content := Some "[Interrupted your last message]" |} ] /\
  (exists t, callLog_of s' = callLog_of s ++
    [ {| timestamp := t; event := "TRANSCRIPT";
         meta := MetaTranscript "user" (Some "[Interrupted your last message]") |} ]) /\
  effects s' = effects s ++
    [ Emit "INT" None;
      WsSend (TextFrame "user: [Interrupted your last message]");
      ConsoleError "Unknown message type:" "INT" ] /\
  (WsSend (TextFrame CLEAR_BUFFER_TOKEN) ∉ drop (length (effects s)) (effects s')) /\
  pendingSamples s' = pendingSamples s /\ tasks s' = tasks s /\
  listeners s' = listeners s.
Proof.
  intros s s'. pose proof (listeners_ok_run W a p0 es) as Hok. fold s in Hok.
  assert (effects s' = effects s ++
    [ Emit "INT" None;
      WsSend (TextFrame "user: [Interrupted your last message]");
      ConsoleError "Unknown message type:" "INT" ]) as Heff.
  { unfold s'. rewrite step_INT by done. cbn. by rewrite <- !app_assoc. }
  split; [|split; [|split; [done|split]]].
  - unfold s'. rewrite step_INT by done.
    unfold history_of. cbn. by rewrite lookup_total_insert_eq.
  - unfold s'. rewrite step_INT by done.
    eexists. unfold callLog_of. cbn. by rewrite lookup_total_insert_eq.
  - rewrite Heff, drop_app_length. intros Hin.
    repeat (apply elem_of_cons in Hin as [[=]|Hin]). by apply elem_of_nil in Hin.
  - unfold s'. by rewrite step_INT.
Qed.

(** C8 on the code: the text frame "callEnded" matches no control token,
    but [emit(messageString)] dispatches it under the name of the emitter's
    own [callEnded] event.  So in every state of a session it runs the
    listener of the end of the call, although the call has not ended:
    [CALL_ENDED] is appended to [callLog] and [onEnd] is called, before the
    frame is reported as an unknown message. *)
Theorem callEnded_text_frame_runs_the_end_of_call (es : list Event) :
  let s := run W (new_CallConversation W a p0) es in
  let s' := step W s (WsMessage (OtherMsg "callEnded")) in
  let entry := {| timestamp := toISOString W (clock W (dateCalls s));
                  event := "CALL_ENDED"; meta := MetaUndefined |} in
  callLog_of s' = callLog_of s ++ [entry] /\
  callLog_of s' <> callLog_of s /\
  effects s' = effects s ++
    [ Emit "callEnded" None;
      OnEnd (callLog s) (callLog_of s ++ [entry]);
      ConsoleError "Unknown message type:" "callEnded" ].
Proof.
  intros s s' entry.
  pose proof (listeners_ok_run W a p0 es) as Hok. fold s in Hok.
  assert (callLog_of s' = callLog_of s ++ [entry]) as Hlog.
  { unfold s'. rewrite step_text, listeners_for_callEnded by done.
    unfold emit_to.
    rewrite (bool_decide_eq_false_2 ("callEnded" = "error")) by done.
    unfold callLog_of. cbn. by rewrite lookup_total_insert_eq. }
  split; [done|]. split.
  - rewrite Hlog. intros Heq. apply (f_equal length) in Heq.
    rewrite length_app in Heq. cbn in Heq. lia.
  - unfold s'. rewrite step_text, listeners_for_callEnded by done.
    unfold emit_to.
    rewrite (bool_decide_eq_false_2 ("callEnded" = "error")) by done.
    cbn. rewrite lookup_total_insert_eq. by rewrite <- !app_assoc.
Qed.

(** X18: in every state of a session, a text frame that is neither "EOS"
    nor "INT" nor one of the event names "callEnded", "userMessage" and
    "error" is emitted as an event under its own content and logged as a
    diagnostic, and changes nothing else: the pending audio, the arrays of
    [history] and [callLog], the listeners and the pending tasks stay as
    they are, and nothing is sent or closed. *)
Theorem unknown_text_is_harmless (es : list Event) (text : string) :
  text <> "EOS" -> text <> "INT" -> text <> "callEnded" ->
  text <> "userMessage" -> text <> "error" ->
  let s := run W (new_CallConversation W a p0) es in
  let s' := step W s (WsMessage (OtherMsg text)) in
  effects s' = effects s ++
    [ Emit text None; ConsoleError "Unknown message type:" text ] /\
  pendingSamples s' = pendingSamples s /\
  turnArrays s' = turnArrays s /\ logArrays s' = logArrays s /\
  history s' = history s /\ callLog s' = callLog s /\
  listeners s' = listeners s /\ tasks s' = tasks s.
Proof.
  intros H1 H2 H3 H4 H5 s s'.
  pose proof (listeners_ok_run W a p0 es) as Hok. fold s in Hok.
  unfold s'. rewrite step_unknown by done. cbn.
  by rewrite <- app_assoc.
Qed.

(** C10: [history] is the array that the assistant's [prompt] points to, so
    a push to [history] is a push to the prompt; at every point of a
    session the array holds the initial prompt followed by the turns noted
    so far, in order; and every [createResponse] call of the session was
    given that array, holding the initial prompt and the turns noted by
    then. *)
Theorem history_is_the_prompt_array (es : list Event) :
  let s0 := new_CallConversation W a p0 in
  let s := run W s0 es in
  (history s0 = prompt a /\ history_of s0 = p0) /\
  history s = prompt (assistant s) /\
  (forall t, turnArrays (exec (push_turn (history s) t) s) !!! prompt (assistant s)
             = (turnArrays s !!! prompt (assistant s)) ++ [t]) /\
  history_of s = p0 ++ noted (callLog_of s) /\
  (forall l c, CreateResponse l c ∈ effects s ->
     l = prompt (assistant s) /\
     exists k, k <= length (callLog_of s) /\
               c = p0 ++ noted (take k (callLog_of s))).
Proof.
  intros s0 s.
  destruct (history_inv_session W a p0 es) as (Ha & Hh & Hc & Hall). fold s0 s in Ha, Hh, Hc, Hall.
  split; [|split; [|split; [|split]]].
  - split; [done|]. unfold history_of, s0. cbn. apply lookup_total_singleton_eq.
  - by rewrite Ha.
  - intros t. rewrite Ha, Hh. cbn. apply lookup_total_insert_eq.
  - done.
  - intros l c Hin. rewrite Forall_forall in Hall.
    rewrite Ha. apply (Hall _ Hin).
Qed.

(** C3, amended: in a session whose websocket closes once and that
    receives no text frame "callEnded", exactly one [CALL_ENDED] entry is
    appended to [callLog], at the close, and [onEnd] is called exactly
    once, at the close, with the [callLog] array, which then holds every
    entry logged before the close followed by [CALL_ENDED]; entries logged
    later come after it. *)
Theorem one_CALL_ENDED_per_close (es1 es2 : list Event) :
  Forall (fun e => ends_call e = false) (es1 ++ es2) ->
  let s1 := run W (new_CallConversation W a p0) es1 in
  let s := run W (new_CallConversation W a p0) (es1 ++ WsClosed :: es2) in
  exists entry,
    event entry = "CALL_ENDED" /\
    ended_entries s = [entry] /\
    onEnd_calls s = [OnEnd (callLog s) (callLog_of s1 ++ [entry])] /\
    (callLog_of s1 ++ [entry]) `prefix_of` callLog_of s.
Proof.
  intros Hes s1 s. rewrite Forall_forall in Hes.
  pose proof (listeners_ok_run W a p0 es1) as Hok1. fold s1 in Hok1.
  assert (same_ends (new_CallConversation W a p0) s1) as (Hc1 & He1 & Ho1).
  { apply same_ends_run; [|apply listeners_ok_new].
    intros e He. apply Hes, elem_of_app. by left. }
  set (s2 := step W s1 WsClosed).
  assert (s = run W s2 es2) as Hs.
  { unfold s, run. by rewrite foldl_app. }
  set (entry := {| timestamp := toISOString W (clock W (dateCalls s1));
                   event := "CALL_ENDED"; meta := MetaUndefined |}).
  assert (callLog s2 = callLog s1 /\
          callLog_of s2 = callLog_of s1 ++ [entry] /\
          effects s2 = effects s1 ++
            [Emit "callEnded" None;
             OnEnd (callLog s1) (callLog_of s1 ++ [entry]); SttDestroy] /\
          listeners_ok s2)
    as (Hc2 & Hl2 & He2 & Hok2).
  { unfold s2. rewrite step_close by done. split; [done|]. split; [|split].
    - unfold callLog_of. cbn. by rewrite lookup_total_insert_eq.
    - cbn. rewrite lookup_total_insert_eq. by rewrite <- !app_assoc.
    - exact Hok1. }
  assert (same_ends s2 s) as (Hc & He & Ho).
  { rewrite Hs. apply same_ends_run; [|done].
    intros e He. apply Hes, elem_of_app. by right. }
  destruct (extends_run W s2 es2 Hok2) as (_ & _ & _ & _ & Hl & _).
  rewrite <- Hs in Hl.
  exists entry. split; [done|]. split; [|split].
  - rewrite He. unfold ended_entries. rewrite Hl2, filter_app.
    fold (ended_entries s1). rewrite He1. done.
  - rewrite Ho. unfold onEnd_calls. rewrite He2, filter_app.
    fold (onEnd_calls s1). rewrite Ho1, Hc, Hc2. done.
  - rewrite <- Hl2. unfold callLog_of. rewrite Hc. apply Hl.
Qed.

End Sessions.

(** ** Concrete sessions *)

(** C1, as stated, fails: after one frame of a single sample, "EOS" hands
    to [transcribe] a buffer of 1024 samples, not the one sample received. *)
Lemma short_chunk_is_not_transcribed_as_received :
  let frames := [one_sample_frame] in
  let s' := run demo_world demo_session
              (map (fun f => WsMessage (ArrayBufferMsg f)) frames
               ++ [WsMessage (OtherMsg "EOS")]) in
  ~ (effects s' = effects demo_session
                  ++ [SttTranscribe (concat (map float32_words frames))]).
Proof.
  intros frames s' H.
  apply (f_equal (fun l => match l with
                           | [SttTranscribe b] => length b
                           | _ => 0
                           end)) in H.
  vm_compute in H. discriminate H.
Qed.

Lemma transcription_input_is_concatenation_witness :
  let s1 := run demo_world demo_session interleaved_utterance in
  pendingSamples demo_session = [] /\
  Forall keeps_utterance interleaved_utterance /\
  received_chunks interleaved_utterance <> [] /\
  effects (step demo_world s1 (WsMessage (OtherMsg "EOS")))
  = effects s1 ++ [SttTranscribe (concat (received_chunks interleaved_utterance))].
Proof.
  intros s1.
  assert (pendingSamples demo_session = []) as H1 by reflexivity.
  assert (Forall keeps_utterance interleaved_utterance) as H2
    by (repeat constructor).
  assert (received_chunks interleaved_utterance <> []) as H3
    by (vm_compute; discriminate).
  split; [exact H1|]. split; [exact H2|]. split; [exact H3|].
  exact (proj2 (proj2 (transcription_input_is_concatenation
                         demo_world demo_session interleaved_utterance H1 H2 H3))).
Defined.

Lemma eos_on_empty_buffer_witness :
  pendingSamples demo_session = [] /\
  effects (step demo_world demo_session (WsMessage (OtherMsg "EOS")))
  = effects demo_session ++ [ConsoleWarn "GOT EOS but no audio"].
Proof.
  assert (pendingSamples demo_session = []) as H by reflexivity.
  split; [exact H|].
  exact (proj1 (eos_on_empty_buffer demo_world demo_session H)).
Defined.

(** The layout of C9 on a frame of one sample followed by a full frame:
    the sample, 1023 zeros, then the full frame. *)
Example short_chunk_is_padded :
  combineAudio (pendingSamples short_frame_session)
  = Some ([1065353216%Z] ++ replicate 1023 0%Z ++ replicate 1024 2%Z).
Proof. vm_compute. reflexivity. Qed.

Lemma eos_buffer_layout_witness :
  0 < length (pendingSamples long_frame_session) /\
  combineAudio (pendingSamples long_frame_session) = None.
Proof.
  assert (0 < length (pendingSamples long_frame_session)) as H
    by (vm_compute; lia).
  split; [exact H|].
  refine (proj2 (proj2 (eos_buffer_layout demo_world long_frame_session H)) _ _ _).
  - reflexivity.
  - vm_compute. lia.
Defined.

(** C9, as stated, fails: with chunks of 1026, 1 and 1024 samples the copy
    succeeds, and the position right behind the one-sample chunk does not
    hold zero padding but a sample of the first chunk, which reached over
    it. *)
Lemma padding_behind_a_short_chunk_is_not_always_zero :
  let data := pendingSamples spill_session in
  map length data = [1026; 1; 1024] /\
  exists buf,
    effects (step demo_world spill_session (WsMessage (OtherMsg "EOS")))
      = effects spill_session ++ [SttTranscribe buf] /\
    ~ (forall i c p, data !! i = Some c -> length c < CHUNK ->
         i * CHUNK + length c <= p < (i + 1) * CHUNK ->
         buf !! p = Some 0%Z).
Proof.
  intros data. split; [vm_compute; reflexivity|].
  destruct (combineAudio data) as [buf|] eqn:Hbuf; [|by vm_compute in Hbuf].
  exists buf. split.
  - change (WsMessage (OtherMsg "EOS"))
      with (WsMessage (OtherMsg END_OF_SPEECH_TOKEN)).
    rewrite step_EOS. fold data.
    assert ((0 <? length data) = true) as -> by (vm_compute; reflexivity).
    rewrite exec_bind. cbn [_profileIt_before new_Date fst]. by rewrite Hbuf.
  - intros Hzero.
    assert (buf !! 1025 = Some 0%Z) as H0.
    { apply (Hzero 1 [5%Z]); [vm_compute; reflexivity | | ]; unfold CHUNK; cbn; lia. }
    assert (buf !! 1025 = Some 8%Z) as H8.
    { assert (Some buf = combineAudio data) as Heq by done.
      apply (f_equal (fun o => match o with Some b => b !! 1025 | None => None end)) in Heq.
      rewrite Heq. vm_compute. reflexivity. }
    rewrite H8 in H0. discriminate H0.
Qed.

Lemma unknown_text_is_harmless_witness :
  let s := run demo_world demo_session [Begin false] in
  effects (step demo_world s (WsMessage (OtherMsg "ping")))
  = effects s ++ [Emit "ping" None; ConsoleError "Unknown message type:" "ping"].
Proof.
  refine (proj1 (unknown_text_is_harmless demo_world demo_assistant demo_prompt
                   [Begin false] "ping" _ _ _ _ _)); discriminate.
Defined.

(** C3, as stated, fails: when the websocket closes while a response is
    being generated, the transcript entry of that response is logged after
    [CALL_ENDED], that is after [onEnd] was called: [onEnd] saw four
    entries of the five. *)
Lemma response_is_logged_after_CALL_ENDED :
  let s := run demo_world demo_session late_response_trace in
  map event (callLog_of s)
    = ["INIT"; "READY"; "TRANSCRIPT"; "CALL_ENDED"; "TRANSCRIPT"] /\
  ~ (onEnd_calls s = [OnEnd (callLog s) (callLog_of s)]).
Proof.
  intros s. split; [vm_compute; reflexivity|]. intros H.
  apply (f_equal (fun l => match l with
                           | [OnEnd _ c] => length c
                           | _ => 0
                           end)) in H.
  vm_compute in H. discriminate H.
Qed.

Lemma one_CALL_ENDED_per_close_witness :
  let es1 := [ Begin false; Settle 0 TimerFired ] in
  let es2 := [ WsMessage (OtherMsg "INT") ] in
  let s1 := run demo_world demo_session es1 in
  let s := run demo_world demo_session (es1 ++ WsClosed :: es2) in
  Forall (fun e => ends_call e = false) (es1 ++ es2) /\
  exists entry,
    event entry = "CALL_ENDED" /\
    ended_entries s = [entry] /\
    onEnd_calls s = [OnEnd (callLog s) (callLog_of s1 ++ [entry])] /\
    (callLog_of s1 ++ [entry]) `prefix_of` callLog_of s.
Proof.
  intros es1 es2 s1 s.
  assert (Forall (fun e => ends_call e = false) (es1 ++ es2)) as H
    by (repeat constructor).
  split; [exact H|].
  exact (one_CALL_ENDED_per_close demo_world demo_assistant demo_prompt es1 es2 H).
Defined.

(** C2 on the code: [off("userMessage", this.startListening)] names a
    function that was never registered, so in every state of a session it
    removes nothing.  In [hangup_trace] the assistant selects "endCall": the
    hangup line is sent and the websocket is closed, but the [userMessage]
    closure stays registered, and the utterance whose transcription was
    pending is still noted in [history] and in [callLog]. *)
Theorem endCall_leaves_the_listener_registered :
  (forall W a p0 es,
     let s := run W (new_CallConversation W a p0) es in
     listeners (exec (off "userMessage" FnStartListening) s) = listeners s) /\
  let s := run demo_world demo_session hangup_trace in
  let s' := step demo_world s (Settle 3 (Transcribed (Some "hello?"))) in
  drop 10 (effects s)
    = [ WsSend (TextFrame "---- Assistant Hung Up ----");
        WsSend (AudioFrame [180%Z]); WsClose ] /\
  listeners_for "userMessage" (listeners s)
    = [("userMessage", FnOnUserMessage 2)] /\
  history_of s' = history_of s ++ [ {| role := "user"; content := Some "hello?" |} ] /\
  map event (callLog_of s') = map event (callLog_of s) ++ ["TRANSCRIPT"].
Proof.
  split.
  - intros W a p0 es s. apply off_startListening_noop, listeners_ok_run.
  - intros s s'.
    split; [vm_compute; reflexivity|].
    split; [vm_compute; reflexivity|].
    split; vm_compute; reflexivity.
Qed.

(** ** Further properties: single events *)

Section Events.

Variable W : World.

Lemma step_settle s id t o continuation :
  tasks s !! id = Some t ->
  resume W t o = Some continuation ->
  step W s (Settle id o) = exec (remove_task id >> continuation) s.
Proof.
  intros Ht Hc. unfold step. cbn [handle]. rewrite exec_bind.
  cbn [get fst exec snd]. by rewrite Ht, Hc.
Qed.

Lemma effects_pushAudio audio s :
  effects (exec (pushAudio audio) s)
  = effects s ++ map (fun c => WsSend (AudioFrame c)) (pushAudio_frames audio).
Proof.
  unfold pushAudio, exec. rewrite for_each_map. apply effects_for_each_perform.
Qed.

Lemma for_each_perform_fields (es : list Effect) : forall s,
  let s' := exec (for_each perform es) s in
  turnArrays s' = turnArrays s /\ logArrays s' = logArrays s /\
  history s' = history s /\ callLog s' = callLog s /\
  assistant s' = assistant s /\ pendingSamples s' = pendingSamples s /\
  listeners s' = listeners s /\ tasks s' = tasks s /\
  nextTask s' = nextTask s /\ dateCalls s' = dateCalls s.
Proof.
  induction es as [|e es IH]; intros s; cbn [for_each]; [done|].
  rewrite exec_bind. apply (IH (exec (perform e) s)).
Qed.

Lemma pushAudio_fields audio s :
  let s' := exec (pushAudio audio) s in
  turnArrays s' = turnArrays s /\ logArrays s' = logArrays s /\
  history s' = history s /\ callLog s' = callLog s /\
  assistant s' = assistant s /\ pendingSamples s' = pendingSamples s /\
  listeners s' = listeners s /\ tasks s' = tasks s /\
  nextTask s' = nextTask s /\ dateCalls s' = dateCalls s.
Proof.
  unfold pushAudio, exec. rewrite for_each_map. apply for_each_perform_fields.
Qed.

(** X1: a binary frame whose byte length is a multiple of four appends one
    chunk, of a quarter as many samples, to the pending audio and does
    nothing else; any other binary frame is not buffered: the handler ends
    in a [RangeError].  Neither touches the arrays, the tasks or the
    listeners. *)
Theorem binary_frame_is_buffered_or_rejected (s : State) (bytes : list byte) :
  let s' := step W s (WsMessage (ArrayBufferMsg bytes)) in
  (if whole_frame bytes
   then pendingSamples s' = pendingSamples s ++ [float32_words bytes] /\
        length (float32_words bytes) = length bytes / 4 /\
        effects s' = effects s
   else pendingSamples s' = pendingSamples s /\
        effects s' = effects s ++ [UnhandledRejection "RangeError"]) /\
  turnArrays s' = turnArrays s /\ logArrays s' = logArrays s /\
  tasks s' = tasks s /\ listeners s' = listeners s.
Proof.
  intros s'. unfold s', step. cbn [handle _onWebsocketMessage].
  unfold _handleWebsocket_Audio, Float32Array_of_buffer, whole_frame.
  destruct (Nat.eqb_spec (length bytes mod 4) 0) as [Hmod|Hmod].
  - split; [|done]. split; [done|]. split; [|done].
    apply float32_words_length.
    apply Nat.Div0.div_exact in Hmod. lia.
  - done.
Qed.

(** X2: the pending audio is only cleared when the transcription comes
    back.  So when a second "EOS" arrives before that, after further frames
    of 1024 samples, [transcribe] is called again on the audio of the first
    utterance followed by the new frames. *)
Theorem eos_before_the_transcript_repeats_the_audio
    (s : State) (frames1 frames2 : list (list byte)) :
  pendingSamples s = [] ->
  frames1 <> [] ->
  Forall (fun f => length f = 4 * CHUNK) frames1 ->
  Forall (fun f => length f = 4 * CHUNK) frames2 ->
  let chunks1 := map float32_words frames1 in
  let chunks2 := map float32_words frames2 in
  let s' := run W s (map (fun f => WsMessage (ArrayBufferMsg f)) frames1
                     ++ [WsMessage (OtherMsg "EOS")]
                     ++ map (fun f => WsMessage (ArrayBufferMsg f)) frames2
                     ++ [WsMessage (OtherMsg "EOS")]) in
  effects s' = effects s ++ [ SttTranscribe (concat chunks1);
                              SttTranscribe (concat (chunks1 ++ chunks2)) ].
Proof.
  intros Hempty Hne H1 H2 chunks1 chunks2 s'.
  assert (forall frames, Forall (fun f : list byte => length f = 4 * CHUNK) frames ->
            Forall (fun c => length c = CHUNK) (map float32_words frames)) as Hchunks.
  { intros frames Hall. apply Forall_map. eapply Forall_impl; [exact Hall|].
    intros f Hf. by apply float32_words_length. }
  unfold s', run. rewrite !foldl_app. cbn [foldl].
  set (s1 := foldl (step W) s (map (fun f => WsMessage (ArrayBufferMsg f)) frames1)).
  destruct (run_audio_frames W frames1 s H1) as [Hp1 He1].
  fold (run W s (map (fun f => WsMessage (ArrayBufferMsg f)) frames1)) in s1.
  fold s1 in Hp1, He1. rewrite Hempty in Hp1. cbn [app] in Hp1. fold chunks1 in Hp1.
  assert (chunks1 <> []) as Hne1.
  { unfold chunks1. destruct frames1; [done|discriminate]. }
  destruct (eos_uniform W s1) as [He2 Hp2].
  { by rewrite Hp1. }
  { rewrite Hp1. by apply Hchunks. }
  set (s2 := step W s1 (WsMessage (OtherMsg "EOS"))) in *.
  destruct (run_audio_frames W frames2 s2 H2) as [Hp3 He3].
  unfold run in Hp3, He3.
  set (s3 := foldl (step W) s2 (map (fun f => WsMessage (ArrayBufferMsg f)) frames2)) in *.
  fold chunks2 in Hp3. rewrite Hp2, Hp1 in Hp3.
  destruct (eos_uniform W s3) as [He4 _].
  { rewrite Hp3. destruct chunks1; [done|discriminate]. }
  { rewrite Hp3. apply Forall_app. split; by apply Hchunks. }
  rewrite He4, He3, He2, He1, Hp3, Hp1. by rewrite <- app_assoc.
Qed.

(** X5: a response with neither content nor tool is not spoken: the only
    thing that happens is the timing line; no turn is noted, nothing is
    logged, no speech is requested. *)
Theorem silent_response_is_not_spoken
    (s : State) (id : nat) (startTime : Z) (content selectedTool : option string) :
  tasks s !! id = Some (AwaitResponse startTime) ->
  truthy content = false ->
  truthy selectedTool = false ->
  let s' := step W s (Settle id (Responded content selectedTool)) in
  effects s' = effects s ++
    [ WsSend (TextFrame (time_line "responseGeneration"
                           (clock W (dateCalls s) - startTime))) ] /\
  turnArrays s' = turnArrays s /\ logArrays s' = logArrays s /\
  listeners s' = listeners s /\ pendingSamples s' = pendingSamples s /\
  tasks s' = delete id (tasks s).
Proof.
  intros Ht Hc Htool s'. unfold s'.
  rewrite (step_settle s id _ (Responded content selectedTool) _ Ht eq_refl).
  assert (bool_decide (selectedTool = Some "endCall") = false) as Hend.
  { apply bool_decide_eq_false_2. intros ->. done. }
  unfold afterResponse, handleTool. rewrite Hc, Htool, Hend. done.
Qed.

(** X6: a tool other than "endCall" is logged and reported, and nothing
    else: one [TOOL_SELECTED] entry that carries the tool and one warning;
    nothing is sent, the websocket is not closed, and the history, the
    listeners and the tasks stay as they are. *)
Theorem unsupported_tool_is_only_logged (s : State) (tool : string) :
  tool <> "" -> tool <> "endCall" ->
  let s' := exec (handleTool W (Some tool)) s in
  callLog_of s' = callLog_of s ++
    [ {| timestamp := toISOString W (clock W (dateCalls s));
         event := "TOOL_SELECTED"; meta := MetaTool (Some tool) |} ] /\
  effects s' = effects s ++
    [ ConsoleWarn ("[CUSTOM TOOLS NOT YET SUPPORTED] Unhandled tool: " +:+ tool) ] /\
  turnArrays s' = turnArrays s /\ listeners s' = listeners s /\
  tasks s' = tasks s /\ pendingSamples s' = pendingSamples s.
Proof.
  intros Hne Hend s'. unfold s', handleTool.
  assert (truthy (Some tool) = true) as Htruthy.
  { cbn. by apply String.eqb_neq in Hne as ->. }
  assert (bool_decide (Some tool = Some "endCall") = false) as Hdec.
  { apply bool_decide_eq_false_2. congruence. }
  rewrite Htruthy, Hdec. unfold callLog_of. cbn.
  by rewrite lookup_total_insert_eq.
Qed.

(** X7: when the response that selects "endCall" also has content, the
    hangup comes after the speech: once the speech is synthesized, the
    timing line, the frames of the speech, the hangup line, the frames of
    the departure tone and the close of the websocket follow in this
    order, and [TOOL_SELECTED] is logged. *)
Theorem hangup_follows_the_speech
    (s : State) (id : nat) (startTime : Z) (audio : list sample) :
  tasks s !! id = Some (AwaitSpeech startTime (Some "endCall")) ->
  let s' := step W s (Settle id (Synthesized audio)) in
  effects s' = effects s ++
    [ WsSend (TextFrame (time_line "speechGeneration"
                           (clock W (dateCalls s) - startTime))) ] ++
    map (fun c => WsSend (AudioFrame c)) (pushAudio_frames audio) ++
    [ WsSend (TextFrame "---- Assistant Hung Up ----") ] ++
    map (fun c => WsSend (AudioFrame c)) (pushAudio_frames (generateBeep W 180)) ++
    [ WsClose ] /\
  callLog_of s' = callLog_of s ++
    [ {| timestamp := toISOString W (clock W (S (dateCalls s)));
         event := "TOOL_SELECTED"; meta := MetaTool (Some "endCall") |} ] /\
  turnArrays s' = turnArrays s.
Proof.
  intros Ht s'. unfold s'.
  rewrite (step_settle s id _ (Synthesized audio) _ Ht eq_refl).
  unfold afterSpeech, handleTool, end_call.
  change (truthy (Some "endCall")) with true.
  change (bool_decide (Some "endCall" = Some "endCall")) with true. cbv iota.
  set (s1 := exec (remove_task id >> _profileIt_after W "speechGeneration" startTime) s).
  set (s2 := exec (pushAudio audio) s1).
  set (s3 := exec (addToCallLog W "TOOL_SELECTED" (MetaTool (Some "endCall")) >>
                   pushMeta "---- Assistant Hung Up ----") s2).
  set (s4 := exec (pushAudio (generateBeep W 180)) s3).
  assert (exec (remove_task id >>
            (_profileIt_after W "speechGeneration" startTime >>
             pushAudio audio >>
             (addToCallLog W "TOOL_SELECTED" (MetaTool (Some "endCall")) >>
              (pushMeta "---- Assistant Hung Up ----" >>
               (pushAudio (generateBeep W 180) >> perform WsClose) >>
               off "userMessage" FnStartListening)))) s
          = exec (off "userMessage" FnStartListening) (exec (perform WsClose) s4))
    as Hexec by reflexivity.
  rewrite Hexec. clear Hexec.
  pose proof (effects_pushAudio audio s1) as He2. fold s2 in He2.
  pose proof (pushAudio_fields audio s1) as (Ht2 & Hl2 & _ & Hc2 & _ & _ & _ & _ & _ & Hd2).
  fold s2 in Ht2, Hl2, Hc2, Hd2.
  pose proof (effects_pushAudio (generateBeep W 180) s3) as He4. fold s4 in He4.
  pose proof (pushAudio_fields (generateBeep W 180) s3) as (Ht4 & Hl4 & _ & Hc4 & _).
  fold s4 in Ht4, Hl4, Hc4.
  split; [|split].
  - cbn. rewrite He4. cbn. rewrite He2. cbn.
    rewrite <- !app_assoc. done.
  - unfold callLog_of. cbn. rewrite Hl4, Hc4. cbn. rewrite Hl2, Hc2, Hd2. cbn.
    by rewrite lookup_total_insert_eq.
  - cbn. rewrite Ht4. cbn. by rewrite Ht2.
Qed.

(** X8: the opening line that the assistant generates is spoken as it
    comes: whatever the response holds as content, [undefined] or empty
    included, is noted as the assistant's turn and handed to
    [textToSpeech], and the tool the response selects is ignored (nothing
    more is logged, the websocket is not closed). *)
Theorem generated_opening_line_is_noted_unchecked
    (s : State) (id : nat) (content selectedTool : option string) :
  tasks s !! id = Some AwaitFirstResponse ->
  let s' := step W s (Settle id (Responded content selectedTool)) in
  history_of s' = history_of s ++ [ {| role := "assistant"; content := content |} ] /\
  callLog_of s' = callLog_of s ++
    [ {| timestamp := toISOString W (clock W (dateCalls s));
         event := "TRANSCRIPT"; meta := MetaTranscript "assistant" content |} ] /\
  effects s' = effects s ++
    [ WsSend (TextFrame ("assistant: " +:+ to_str content));
      TextToSpeech content ] /\
  listeners s' = listeners s.
Proof.
  intros Ht s'. unfold s'.
  rewrite (step_settle s id _ (Responded content selectedTool) _ Ht eq_refl).
  unfold history_of, callLog_of. cbn.
  rewrite !lookup_total_insert_eq. by rewrite <- app_assoc.
Qed.

(** X9: when the timer of [begin] fires, one more [userMessage] closure is
    registered, [READY] is logged and the banner and the "RDY" token are
    sent, in this order.  An assistant that does not speak first does
    nothing more; one with a preset opening message notes it and asks for
    its speech without asking for a response; one without asks for a
    response and notes nothing yet. *)
Theorem timer_makes_the_session_ready (s : State) (id : nat) :
  tasks s !! id = Some AwaitTimer ->
  let s' := step W s (Settle id TimerFired) in
  let opening := speakFirstOpeningMessage (assistant s) in
  let ready := {| timestamp := toISOString W (clock W (dateCalls s));
                  event := "READY"; meta := MetaUndefined |} in
  listeners s' = listeners s ++ [("userMessage", FnOnUserMessage (length (listeners s)))] /\
  (if negb (speakFirst (assistant s))
   then effects s' = effects s ++
          [ WsSend (TextFrame "--- Assistant Ready ---"); WsSend (TextFrame "RDY") ] /\
        callLog_of s' = callLog_of s ++ [ready] /\
        history_of s' = history_of s
   else if truthy opening
   then effects s' = effects s ++
          [ WsSend (TextFrame "--- Assistant Ready ---"); WsSend (TextFrame "RDY");
            WsSend (TextFrame ("assistant: " +:+ to_str opening));
            TextToSpeech opening ] /\
        callLog_of s' = callLog_of s ++
          [ ready;
            {| timestamp := toISOString W (clock W (S (dateCalls s)));
               event := "TRANSCRIPT";
               meta := MetaTranscript "assistant" opening |} ] /\
        history_of s' = history_of s ++ [ {| role := "assistant"; content := opening |} ]
   else effects s' = effects s ++
          [ WsSend (TextFrame "--- Assistant Ready ---"); WsSend (TextFrame "RDY");
            CreateResponse (history s) (history_of s) ] /\
        callLog_of s' = callLog_of s ++ [ready] /\
        history_of s' = history_of s).
Proof.
  intros Ht s' opening ready. unfold s'.
  rewrite (step_settle s id _ TimerFired _ Ht eq_refl).
  unfold onTimer. rewrite !exec_bind.
  change (fst (get assistant (exec (pushMeta START_LISTENING_TOKEN)
    (exec (pushMeta "--- Assistant Ready ---")
       (exec (addToCallLog W "READY" MetaUndefined)
          (exec startListening (exec (remove_task id) s)))))))
    with (assistant s).
  fold opening.
  destruct (speakFirst (assistant s)); [destruct (truthy opening)|];
    unfold history_of, callLog_of; cbn;
    rewrite ?lookup_total_insert_eq; rewrite <- ?app_assoc; done.
Qed.

(** X10: a rejected [transcribe], [createResponse] or [textToSpeech] ends
    the waiting function with an unhandled rejection and nothing else:
    nothing is sent, noted or logged, and the pending audio stays, so after
    a failed transcription it is still there for the next "EOS". *)
Theorem rejection_ends_the_handler_silently (s : State) (id : nat) (t : Task) :
  tasks s !! id = Some t ->
  t <> AwaitTimer ->
  let s' := step W s (Settle id Rejected) in
  effects s' = effects s ++ [UnhandledRejection "rejected"] /\
  pendingSamples s' = pendingSamples s /\
  turnArrays s' = turnArrays s /\ logArrays s' = logArrays s /\
  listeners s' = listeners s /\
  tasks s' = delete id (tasks s).
Proof.
  intros Ht Hne s'. unfold s'.
  assert (resume W t Rejected = Some (perform (UnhandledRejection "rejected"))) as Hr.
  { by destruct t. }
  by rewrite (step_settle s id t Rejected _ Ht Hr).
Qed.

End Events.

(** ** Further properties: sessions *)

Lemma listeners_for_userMessage s :
  listeners_ok s -> Forall is_user_listener (userMessage_listeners s).
Proof.
  intros Hok. apply Forall_forall. intros [n fn] Hin.
  apply list_elem_of_filter in Hin as [Hn Hin]. cbn in Hn. subst n.
  destruct (listeners_ok_elem _ _ _ Hok Hin) as [[[=] _]|[[[=] _]|[_ Hk]]].
  by split.
Qed.

Lemma filter_transcribe_snoc (es : list Effect) e :
  is_SttTranscribe e = false ->
  filter (fun e => is_SttTranscribe e = true) (es ++ [e])
  = filter (fun e => is_SttTranscribe e = true) es.
Proof.
  intros He. rewrite filter_app, filter_cons_False, filter_nil by (by rewrite He).
  apply app_nil_r.
Qed.

Section Utterances.

Variable W : World.
Variable a : Assistant.
Variable p0 : list Turn.

(** What one [userMessage] closure does up to its first [await]. *)
Lemma onUserMessage_summary message s :
  let s' := exec (onUserMessage W message) s in
  history_of s' = history_of s ++ [ {| role := "user"; content := message |} ] /\
  length (callLog_of s') = S (length (callLog_of s)) /\
  transcribe_calls s' = transcribe_calls s /\
  history s' = history s /\ callLog s' = callLog s /\
  listeners s' = listeners s /\ pendingSamples s' = pendingSamples s.
Proof.
  intros s'. unfold s', history_of, callLog_of, transcribe_calls. cbn.
  rewrite !lookup_total_insert_eq, length_app. cbn.
  rewrite !filter_transcribe_snoc by done.
  repeat split; try done. lia.
Qed.

Lemma userMessage_listeners_summary message (ums : list (string * FnRef)) :
  Forall is_user_listener ums ->
  forall s,
  let s' := exec (for_each (fun l => call_listener W l.2 message) ums) s in
  history_of s' = history_of s
                  ++ replicate (length ums) {| role := "user"; content := message |} /\
  length (callLog_of s') = length (callLog_of s) + length ums /\
  transcribe_calls s' = transcribe_calls s /\
  history s' = history s /\ callLog s' = callLog s /\
  listeners s' = listeners s /\ pendingSamples s' = pendingSamples s.
Proof.
  induction 1 as [|[n fn] ums [_ [k Hk]] _ IH]; intros s; cbn [for_each length replicate].
  - rewrite app_nil_r, Nat.add_0_r. done.
  - cbn in Hk. subst fn. rewrite exec_bind. cbn [snd call_listener].
    destruct (onUserMessage_summary message s)
      as (Hh & Hl & Ht & Hhl & Hcl & Hls & Hp).
    destruct (IH (exec (onUserMessage W message) s))
      as (Hh' & Hl' & Ht' & Hhl' & Hcl' & Hls' & Hp').
    rewrite Hh', Hl', Ht', Hhl', Hcl', Hls', Hp', Hh, Hl, Ht.
    rewrite <- app_assoc. repeat split; try done. lia.
Qed.

(** What the resumption of [_handleWebsocket_Meta] does once the
    transcription is there. *)
Lemma afterTranscribe_summary s startTime transcription :
  listeners_ok s ->
  let s' := exec (afterTranscribe W startTime transcription) s in
  history_of s' = history_of s
    ++ replicate (length (userMessage_listeners s))
         {| role := "user"; content := transcription |} /\
  length (callLog_of s') = length (callLog_of s) + length (userMessage_listeners s) /\
  transcribe_calls s' = transcribe_calls s /\
  pendingSamples s' = [] /\
  listeners s' = listeners s.
Proof.
  intros Hok s'.
  pose proof (listeners_for_userMessage s Hok) as Hums.
  set (s1 := exec (_profileIt_after W "transcription" startTime >>
                   perform (Emit "userMessage" transcription)) s).
  assert (s' = exec (set_pendingSamples [])
                 (exec (for_each (fun l => call_listener W l.2 transcription)
                          (userMessage_listeners s)) s1)) as ->.
  { unfold s', afterTranscribe. rewrite exec_bind, exec_emit.
    unfold emit_to.
    by rewrite (bool_decide_eq_false_2 ("userMessage" = "error")). }
  destruct (userMessage_listeners_summary transcription _ Hums s1)
    as (Hh & Hl & Ht & _ & _ & Hls & _).
  set (s2 := exec (for_each (fun l => call_listener W l.2 transcription)
                     (userMessage_listeners s)) s1) in *.
  assert (transcribe_calls s1 = transcribe_calls s) as Ht1.
  { unfold transcribe_calls, s1. cbn. by rewrite !filter_transcribe_snoc. }
  change (history_of s2 = history_of s
            ++ replicate (length (userMessage_listeners s))
                 {| role := "user"; content := transcription |} /\
          length (callLog_of s2)
            = length (callLog_of s) + length (userMessage_listeners s) /\
          transcribe_calls s2 = transcribe_calls s /\
          @nil chunk = [] /\
          listeners s2 = listeners s).
  rewrite Hh, Hl, Ht, Hls, Ht1. done.
Qed.

Lemma run_binary_frames (frames : list (list byte)) : forall s,
  let s' := run W s (map (fun f => WsMessage (ArrayBufferMsg f)) frames) in
  tasks s' = tasks s /\ listeners s' = listeners s /\
  transcribe_calls s' = transcribe_calls s.
Proof.
  induction frames as [|f frames IH]; intros s; cbn [run foldl map]; [done|].
  destruct (IH (step W s (WsMessage (ArrayBufferMsg f)))) as (Ht & Hl & Hc).
  unfold run in Ht, Hl, Hc. rewrite Ht, Hl, Hc.
  unfold step. cbn [handle _onWebsocketMessage]. unfold _handleWebsocket_Audio.
  destruct (Float32Array_of_buffer f); [done|].
  unfold transcribe_calls. cbn. by rewrite filter_transcribe_snoc.
Qed.

(** X3: audio that arrives while a transcription is pending is dropped:
    when the transcription comes back the pending audio is emptied,
    whatever binary frames were received since the "EOS", and no
    [transcribe] call is made for them. *)
Theorem audio_during_transcription_is_dropped
    (es : list Event) (id : nat) (startTime : Z)
    (transcription : option string) (frames : list (list byte)) :
  let s := run W (new_CallConversation W a p0) es in
  tasks s !! id = Some (AwaitTranscribe startTime) ->
  let s' := run W s (map (fun f => WsMessage (ArrayBufferMsg f)) frames
                     ++ [Settle id (Transcribed transcription)]) in
  pendingSamples s' = [] /\ transcribe_calls s' = transcribe_calls s.
Proof.
  intros s Ht s'.
  destruct (run_binary_frames frames s) as (Ht1 & Hl1 & Hc1).
  unfold s', run. rewrite foldl_app. cbn [foldl].
  fold (run W s (map (fun f => WsMessage (ArrayBufferMsg f)) frames)).
  set (s1 := run W s (map (fun f => WsMessage (ArrayBufferMsg f)) frames)) in *.
  assert (listeners_ok s1) as Hok1.
  { unfold listeners_ok. rewrite Hl1. apply listeners_ok_run. }
  rewrite <- Ht1 in Ht.
  rewrite (step_settle W s1 id _ (Transcribed transcription) _ Ht eq_refl).
  rewrite exec_bind.
  assert (listeners_ok (exec (remove_task id) s1)) as Hok2 by exact Hok1.
  destruct (afterTranscribe_summary (exec (remove_task id) s1) startTime
              transcription Hok2) as (_ & _ & Hc & Hp & _).
  rewrite Hp, Hc. by rewrite <- Hc1.
Qed.

Lemma timer_adds_a_listener s id :
  tasks s !! id = Some AwaitTimer ->
  length (userMessage_listeners (step W s (Settle id TimerFired)))
  = S (length (userMessage_listeners s)).
Proof.
  intros Ht. rewrite (step_settle W s id _ TimerFired _ Ht eq_refl).
  assert (listeners (exec (remove_task id >> onTimer W) s)
          = listeners s ++ [("userMessage", FnOnUserMessage (length (listeners s)))])
    as Hls.
  { unfold onTimer. rewrite !exec_bind.
    change (fst (get assistant (exec (pushMeta START_LISTENING_TOKEN)
      (exec (pushMeta "--- Assistant Ready ---")
         (exec (addToCallLog W "READY" MetaUndefined)
            (exec startListening (exec (remove_task id) s)))))))
      with (assistant s).
    destruct (speakFirst (assistant s)); [destruct (truthy _)|]; done. }
  unfold userMessage_listeners, listeners_for. rewrite Hls, filter_app.
  rewrite filter_cons_True by done. rewrite length_app. cbn. lia.
Qed.

(** X4: a transcribed utterance is handled once by every [userMessage]
    closure registered at that time, so with [n] closures the user's turn
    is noted [n] times.  A new session has none, and every timer of
    [begin] that fires adds one: before the first timer an utterance is
    not noted at all, after a second [begin] it is noted twice. *)
Theorem utterance_is_noted_once_per_listener
    (es : list Event) (id : nat) (startTime : Z) (transcription : option string) :
  let s := run W (new_CallConversation W a p0) es in
  tasks s !! id = Some (AwaitTranscribe startTime) ->
  let s' := step W s (Settle id (Transcribed transcription)) in
  let n := length (userMessage_listeners s) in
  userMessage_listeners (new_CallConversation W a p0) = [] /\
  (forall id', tasks s !! id' = Some AwaitTimer ->
     length (userMessage_listeners (step W s (Settle id' TimerFired))) = S n) /\
  history_of s' = history_of s
    ++ replicate n {| role := "user"; content := transcription |} /\
  length (callLog_of s') = length (callLog_of s) + n.
Proof.
  intros s Ht s' n. split; [done|]. split; [apply timer_adds_a_listener|].
  unfold s'.
  rewrite (step_settle W s id _ (Transcribed transcription) _ Ht eq_refl).
  rewrite exec_bind.
  assert (listeners_ok (exec (remove_task id) s)) as Hok
    by exact (listeners_ok_run W a p0 es).
  destruct (afterTranscribe_summary (exec (remove_task id) s) startTime
              transcription Hok) as (Hh & Hl & _).
  done.
Qed.

(** X11: an interrupt does not cancel a response that is being generated:
    the interrupt is noted at once, and when the response arrives its
    content is still noted, after the interrupt, and sent to speech. *)
Theorem interrupt_does_not_cancel_the_response
    (es : list Event) (id : nat) (startTime : Z) (content : string)
    (selectedTool : option string) :
  let s := run W (new_CallConversation W a p0) es in
  tasks s !! id = Some (AwaitResponse startTime) ->
  content <> "" ->
  let s' := run W s [ WsMessage (OtherMsg "INT");
                      Settle id (Responded (Some content) selectedTool) ] in
  history_of s' = history_of s ++
    [ {| role := "user"; content := Some "[Interrupted your last message]" |};
      {| role := "assistant"; content := Some content |} ] /\
  effects s' = effects s ++
    [ Emit "INT" None;
      WsSend (TextFrame "user: [Interrupted your last message]");
      ConsoleError "Unknown message type:" "INT";
      WsSend (TextFrame (time_line "responseGeneration"
                           (clock W (S (dateCalls s)) - startTime)));
      WsSend (TextFrame ("assistant: " +:+ content));
      TextToSpeech (Some content) ].
Proof.
  intros s Ht Hne s'. unfold s'. cbn [run foldl].
  pose proof (listeners_ok_run W a p0 es) as Hok. fold s in Hok.
  rewrite (step_INT W s Hok).
  set (s1 := exec (perform (Emit "INT" None) >>
                   call_listener W FnOnInterrupt None >>
                   perform (ConsoleError "Unknown message type:" "INT")) s).
  assert (tasks s1 !! id = Some (AwaitResponse startTime)) as Ht1 by exact Ht.
  rewrite (step_settle W s1 id _ (Responded (Some content) selectedTool) _ Ht1 eq_refl).
  unfold afterResponse.
  assert (truthy (Some content) = true) as ->.
  { cbn. by apply String.eqb_neq in Hne as ->. }
  unfold history_of. cbn. rewrite !lookup_total_insert_eq.
  by rewrite <- !app_assoc.
Qed.

(** X16: a text frame "userMessage" is taken for an utterance: it is
    emitted under the name of the utterance event, so every registered
    closure notes a user turn without content, although nothing was
    transcribed; the pending audio stays as it is. *)
Theorem userMessage_text_frame_is_taken_for_an_utterance (es : list Event) :
  let s := run W (new_CallConversation W a p0) es in
  let s' := step W s (WsMessage (OtherMsg "userMessage")) in
  history_of s' = history_of s
    ++ replicate (length (userMessage_listeners s))
         {| role := "user"; content := None |} /\
  transcribe_calls s' = transcribe_calls s /\
  pendingSamples s' = pendingSamples s.
Proof.
  intros s s'. pose proof (listeners_ok_run W a p0 es) as Hok. fold s in Hok.
  pose proof (listeners_for_userMessage s Hok) as Hums.
  unfold s'. rewrite step_text by done. fold (userMessage_listeners s).
  unfold emit_to.
  rewrite (bool_decide_eq_false_2 ("userMessage" = "error")) by done. cbv iota.
  cbn [andb].
  set (s1 := exec (perform (Emit "userMessage" None)) s).
  destruct (userMessage_listeners_summary None _ Hums s1)
    as (Hh & _ & Ht & _ & _ & _ & Hp).
  set (s2 := exec (for_each (fun l => call_listener W l.2 None)
                     (userMessage_listeners s)) s1) in *.
  assert (transcribe_calls s1 = transcribe_calls s) as Ht1.
  { unfold transcribe_calls, s1. cbn. by rewrite filter_transcribe_snoc. }
  assert (forall s2 : State,
            transcribe_calls
              (exec (perform (ConsoleError "Unknown message type:" "userMessage")) s2)
            = transcribe_calls s2) as Ht3.
  { intros x. unfold transcribe_calls. cbn. by rewrite filter_transcribe_snoc. }
  change (history_of s2 = history_of s
            ++ replicate (length (userMessage_listeners s))
                 {| role := "user"; content := None |} /\
          transcribe_calls
            (exec (perform (ConsoleError "Unknown message type:" "userMessage")) s2)
          = transcribe_calls s /\
          pendingSamples s2 = pendingSamples s).
  rewrite Ht3, Hh, Ht, Hp, Ht1. done.
Qed.

(** X13: the text frame "error" is emitted as an event without a listener,
    which throws: the handler ends in an unhandled rejection before the
    diagnostic is logged, and nothing else changes. *)
Theorem error_text_frame_throws (es : list Event) :
  let s := run W (new_CallConversation W a p0) es in
  let s' := step W s (WsMessage (OtherMsg "error")) in
  effects s' = effects s ++
    [ Emit "error" None; UnhandledRejection "ERR_UNHANDLED_ERROR" ] /\
  pendingSamples s' = pendingSamples s /\
  turnArrays s' = turnArrays s /\ logArrays s' = logArrays s /\
  listeners s' = listeners s /\ tasks s' = tasks s.
Proof.
  intros s s'. pose proof (listeners_ok_run W a p0 es) as Hok. fold s in Hok.
  unfold s'. rewrite step_text, listeners_for_other by done.
  unfold emit_to.
  rewrite (bool_decide_eq_true_2 ("error" = "error")) by done.
  rewrite (bool_decide_eq_true_2 (@nil (string * FnRef) = [])) by done.
  cbn. by rewrite <- app_assoc.
Qed.

(** X15: the close of the websocket cancels nothing: [callEnded] is
    emitted, [onEnd] is called and then the speech-to-text engine is
    destroyed, while the suspended functions, the pending audio, the
    listeners and the history stay as they are. *)
Theorem close_cancels_nothing (es : list Event) :
  let s := run W (new_CallConversation W a p0) es in
  let s' := step W s WsClosed in
  let entry := {| timestamp := toISOString W (clock W (dateCalls s));
                  event := "CALL_ENDED"; meta := MetaUndefined |} in
  effects s' = effects s ++
    [ Emit "callEnded" None;
      OnEnd (callLog s) (callLog_of s ++ [entry]);
      SttDestroy ] /\
  tasks s' = tasks s /\ pendingSamples s' = pendingSamples s /\
  listeners s' = listeners s /\ turnArrays s' = turnArrays s.
Proof.
  intros s s' entry. pose proof (listeners_ok_run W a p0 es) as Hok. fold s in Hok.
  unfold s'. rewrite step_close by done. cbn.
  rewrite lookup_total_insert_eq. by rewrite <- !app_assoc.
Qed.

(** X17: the log of a session always starts with the [INIT] entry of the
    constructor, which carries the rendering of the assistant. *)
Theorem callLog_starts_with_INIT (es : list Event) :
  let s := run W (new_CallConversation W a p0) es in
  callLog_of s !! 0 =
    Some {| timestamp := toISOString W (clock W 0); event := "INIT";
            meta := MetaAssistant (JSON_stringify W a p0) |}.
Proof.
  intros s.
  destruct (extends_run W (new_CallConversation W a p0) es (listeners_ok_new W a p0))
    as (_ & _ & Hc & _ & Hl & _).
  fold s in Hc, Hl. specialize (Hl (callLog s)). fold (callLog_of s) in Hl.
  destruct Hl as [rest Hrest]. rewrite Hrest, Hc.
  cbn. rewrite lookup_total_insert_eq, lookup_total_singleton_eq. done.
Qed.

End Utterances.

(** ** Further properties: the order of the log and the number of frames *)

Lemma increasing_snoc ks d :
  increasing ks -> Forall (fun k => k < d) ks -> increasing (ks ++ [d]).
Proof.
  intros Hinc Hlt i j x y Hi Hj Hij.
  assert (j < length (ks ++ [d])) as Hjlen by (by apply lookup_lt_Some in Hj).
  rewrite length_app in Hjlen. cbn in Hjlen.
  assert (i < length ks) as Hilen by lia.
  rewrite lookup_app_l in Hi by done.
  destruct (decide (j < length ks)) as [Hjl|Hjl].
  - rewrite lookup_app_l in Hj by done. by eapply Hinc.
  - rewrite lookup_app_r in Hj by lia.
    replace (j - length ks) with 0 in Hj by lia. injection Hj as <-.
    rewrite Forall_forall in Hlt. apply Hlt. by eapply list_elem_of_lookup_2.
Qed.

Section Chronology.

Variable W : World.

Lemma chronological_same {A} (m : Prog A) :
  (forall s, logArrays (exec m s) = logArrays s) ->
  (forall s, callLog (exec m s) = callLog s) ->
  (forall s, dateCalls (exec m s) = dateCalls s) ->
  pres (keeps (chronological W)) m.
Proof.
  intros Hl Hc Hd s. unfold keeps, chronological, callLog_of.
  by rewrite Hl, Hc, Hd.
Qed.

Lemma chronological_new_Date : pres (keeps (chronological W)) (new_Date W).
Proof.
  intros s (ks & Hts & Hinc & Hlt). exists ks. split; [done|]. split; [done|].
  eapply Forall_impl; [exact Hlt|]. cbn. intros k Hk. lia.
Qed.

Lemma chronological_addToCallLog ev m :
  pres (keeps (chronological W)) (addToCallLog W ev m).
Proof.
  intros s (ks & Hts & Hinc & Hlt). exists (ks ++ [dateCalls s]).
  split; [|split].
  - unfold callLog_of. cbn. rewrite lookup_total_insert_eq.
    rewrite !map_app. cbn. f_equal. exact Hts.
  - by apply increasing_snoc.
  - cbn. apply Forall_app. split.
    + eapply Forall_impl; [exact Hlt|]. cbn. intros k Hk. lia.
    + apply Forall_singleton. lia.
Qed.

Lemma chronological_perform e : pres (keeps (chronological W)) (perform e).
Proof. by apply chronological_same. Qed.

Lemma chronological_noteWhatWasSaid sp m :
  pres (keeps (chronological W)) (noteWhatWasSaid W sp m).
Proof.
  unfold noteWhatWasSaid.
  apply pres_bind; [apply _ | apply chronological_addToCallLog | intros _].
  apply pres_bind; [apply _ | | intros _; apply chronological_perform].
  apply pres_bind; [apply _ | apply pres_get; apply _ | intros l].
  by apply chronological_same.
Qed.

Lemma chronological_ended arg :
  pres (keeps (chronological W)) (call_listener W FnOnCallEnded arg).
Proof.
  cbn [call_listener].
  apply pres_bind; [apply _ | apply chronological_addToCallLog | intros _].
  apply pres_bind; [apply _ | apply pres_get; apply _ | intros l].
  apply pres_bind; [apply _ | apply pres_get; apply _ | intros c].
  apply chronological_perform.
Qed.

Lemma chronological_run s es :
  guarded (keeps (chronological W)) s (run W s es).
Proof.
  apply (R_run W (keeps (chronological W)) True).
  - intros e _. apply chronological_perform.
  - apply chronological_new_Date.
  - intros ev m _ _. apply chronological_addToCallLog.
  - apply chronological_noteWhatWasSaid.
  - unfold createResponse.
    apply pres_bind; [apply _ | apply pres_get; apply _ | intros l].
    apply pres_bind; [apply _ | apply pres_get; apply _ | intros c].
    apply chronological_perform.
  - intros t. by apply chronological_same.
  - intros id. by apply chronological_same.
  - intros p. by apply chronological_same.
  - intros ls. by apply chronological_same.
  - intros _ arg. apply chronological_ended.
  - done.
Qed.

(** X12: the log is in the order of the clock: in every state of a
    session the timestamps of [callLog] are readings of the clock taken
    one after the other, each entry later than the one before it, so with
    a clock that does not run backwards the log is sorted by time. *)
Theorem callLog_is_chronological (a : Assistant) (p0 : list Turn) (es : list Event) :
  let s := run W (new_CallConversation W a p0) es in
  exists ks,
    map timestamp (callLog_of s) = map (fun k => toISOString W (clock W k)) ks /\
    (forall i j x y, ks !! i = Some x -> ks !! j = Some y -> i < j -> x < y) /\
    Forall (fun k => k < dateCalls s) ks.
Proof.
  intros s.
  apply (chronological_run (new_CallConversation W a p0) es);
    [apply listeners_ok_new|].
  exists [0]. split; [|split].
  - unfold callLog_of. cbn.
    by rewrite lookup_total_insert_eq, lookup_total_singleton_eq.
  - intros [|i] [|j] x y Hi Hj Hij; try lia; by destruct j.
  - apply Forall_singleton. cbn. lia.
Qed.

End Chronology.

(** X14: [pushAudio] sends as many frames as 1024-sample slices are needed
    to cover the buffer, the length divided by 1024 and rounded up: none
    for an empty buffer, one for up to 1024 samples. *)
Theorem pushAudio_frame_count (audio : list sample) (s : State) :
  let sent := drop (length (effects s)) (effects (exec (pushAudio audio) s)) in
  length sent = (length audio + (CHUNK - 1)) / CHUNK /\
  (audio = [] -> sent = []) /\
  (0 < length audio <= CHUNK -> sent = [WsSend (AudioFrame audio)]).
Proof.
  intros sent.
  assert (sent = map (fun c => WsSend (AudioFrame c)) (pushAudio_frames audio)) as ->.
  { unfold sent. rewrite effects_pushAudio. apply drop_app_length. }
  assert (forall k, pushAudio_frames audio !! k =
     if (k * CHUNK <? length audio)%nat
     then Some (take CHUNK (drop (k * CHUNK) audio))
     else None) as Hlook.
  { intros k. unfold pushAudio_frames.
    rewrite pushAudio_loop_lookup by lia. done. }
  set (frames := pushAudio_frames audio) in *.
  set (n := length frames).
  assert (forall k, k < n <-> k * CHUNK < length audio) as Hn.
  { intros k. unfold n. rewrite <- lookup_lt_is_Some, Hlook.
    destruct (Nat.ltb_spec (k * CHUNK) (length audio)) as [Hlt|Hge].
    - split; [intros _; exact Hlt | intros _; by eexists].
    - split; [intros [? [=]] | lia]. }
  assert (n = (length audio + (CHUNK - 1)) / CHUNK) as Hcount.
  { pose proof (Hn n) as Hnn. pose proof (Hn (pred n)) as Hpn.
    unfold CHUNK in *. apply Nat.div_unique with (r := (length audio + 1023) - n * 1024).
    - destruct n; lia.
    - destruct n; lia. }
  split; [by rewrite length_map|]. split.
  - intros ->. apply (f_equal (fun x => x)) in Hcount.
    assert (n = 0) as Hz by (rewrite Hcount; by vm_compute).
    unfold n in Hz. by destruct frames.
  - intros Hlen.
    assert (n = 1) as H1.
    { pose proof (Hn 0) as H0. pose proof (Hn 1) as H1'. lia. }
    pose proof (Hlook 0) as H0. cbn [Nat.mul] in H0.
    destruct (Nat.ltb_spec 0 (length audio)); [|lia].
    rewrite drop_0, take_ge in H0 by lia.
    unfold n in H1. destruct frames as [|f [|f' frames']]; try done.
    cbn in H0. by injection H0 as ->.
Qed.

(** ** Further properties on concrete sessions *)

Lemma eos_before_the_transcript_repeats_the_audio_witness :
  let frames1 := [full_frame x01] in
  let frames2 := [full_frame x02] in
  pendingSamples demo_session = [] /\
  frames1 <> [] /\
  Forall (fun f => length f = 4 * CHUNK) frames1 /\
  Forall (fun f => length f = 4 * CHUNK) frames2 /\
  effects (run demo_world demo_session
             (map (fun f => WsMessage (ArrayBufferMsg f)) frames1
              ++ [WsMessage (OtherMsg "EOS")]
              ++ map (fun f => WsMessage (ArrayBufferMsg f)) frames2
              ++ [WsMessage (OtherMsg "EOS")]))
  = effects demo_session ++
      [ SttTranscribe (concat (map float32_words frames1));
        SttTranscribe (concat (map float32_words frames1
                               ++ map float32_words frames2)) ].
Proof.
  intros frames1 frames2.
  assert (pendingSamples demo_session = []) as H0 by reflexivity.
  assert (frames1 <> []) as H1 by discriminate.
  assert (Forall (fun f => length f = 4 * CHUNK) frames1) as H2
    by (repeat constructor).
  assert (Forall (fun f => length f = 4 * CHUNK) frames2) as H3
    by (repeat constructor).
  split; [exact H0|]. split; [exact H1|]. split; [exact H2|]. split; [exact H3|].
  exact (eos_before_the_transcript_repeats_the_audio
           demo_world demo_session frames1 frames2 H0 H1 H2 H3).
Defined.

Lemma audio_during_transcription_is_dropped_witness :
  let s := run demo_world demo_session waiting_for_transcript in
  tasks s !! 1 = Some (AwaitTranscribe 20) /\
  pendingSamples
    (run demo_world s
       (map (fun f => WsMessage (ArrayBufferMsg f)) [one_sample_frame]
        ++ [Settle 1 (Transcribed (Some "hi"))])) = [].
Proof.
  intros s.
  assert (tasks s !! 1 = Some (AwaitTranscribe 20)) as H
    by (vm_compute; reflexivity).
  split; [exact H|].
  exact (proj1 (audio_during_transcription_is_dropped
                  demo_world demo_assistant demo_prompt waiting_for_transcript
                  1 20%Z (Some "hi") [one_sample_frame] H)).
Defined.

Lemma utterance_is_noted_once_per_listener_witness :
  let s := run demo_world demo_session waiting_for_transcript in
  tasks s !! 1 = Some (AwaitTranscribe 20) /\
  history_of (step demo_world s (Settle 1 (Transcribed (Some "hi"))))
  = history_of s
    ++ replicate (length (userMessage_listeners s))
         {| role := "user"; content := Some "hi" |}.
Proof.
  intros s.
  assert (tasks s !! 1 = Some (AwaitTranscribe 20)) as H
    by (vm_compute; reflexivity).
  split; [exact H|].
  exact (proj1 (proj2 (proj2 (utterance_is_noted_once_per_listener
                  demo_world demo_assistant demo_prompt waiting_for_transcript
                  1 20%Z (Some "hi") H)))).
Defined.

Lemma silent_response_is_not_spoken_witness :
  let s := run demo_world demo_session waiting_for_response in
  tasks s !! 2 = Some (AwaitResponse 50) /\
  effects (step demo_world s (Settle 2 (Responded None None)))
  = effects s ++
      [ WsSend (TextFrame (time_line "responseGeneration"
                             (clock demo_world (dateCalls s) - 50))) ].
Proof.
  intros s.
  assert (tasks s !! 2 = Some (AwaitResponse 50)) as H
    by (vm_compute; reflexivity).
  split; [exact H|].
  exact (proj1 (silent_response_is_not_spoken demo_world s 2 50%Z None None
                  H eq_refl eq_refl)).
Defined.

Lemma unsupported_tool_is_only_logged_witness :
  "transferCall" <> "" /\ "transferCall" <> "endCall" /\
  effects (exec (handleTool demo_world (Some "transferCall")) demo_session)
  = effects demo_session ++
      [ ConsoleWarn ("[CUSTOM TOOLS NOT YET SUPPORTED] Unhandled tool: "
                     +:+ "transferCall") ].
Proof.
  assert ("transferCall" <> "") as H1 by discriminate.
  assert ("transferCall" <> "endCall") as H2 by discriminate.
  split; [exact H1|]. split; [exact H2|].
  exact (proj1 (proj2 (unsupported_tool_is_only_logged
                         demo_world demo_session "transferCall" H1 H2))).
Defined.

Lemma hangup_follows_the_speech_witness :
  let s := run demo_world demo_session waiting_for_speech in
  tasks s !! 3 = Some (AwaitSpeech 80 (Some "endCall")) /\
  effects (step demo_world s (Settle 3 (Synthesized [1%Z; 2%Z; 3%Z])))
  = effects s ++
      [ WsSend (TextFrame (time_line "speechGeneration"
                             (clock demo_world (dateCalls s) - 80))) ] ++
      map (fun c => WsSend (AudioFrame c)) (pushAudio_frames [1%Z; 2%Z; 3%Z]) ++
      [ WsSend (TextFrame "---- Assistant Hung Up ----") ] ++
      map (fun c => WsSend (AudioFrame c))
          (pushAudio_frames (generateBeep demo_world 180)) ++
      [ WsClose ].
Proof.
  intros s.
  assert (tasks s !! 3 = Some (AwaitSpeech 80 (Some "endCall"))) as H
    by (vm_compute; reflexivity).
  split; [exact H|].
  exact (proj1 (hangup_follows_the_speech demo_world s 3 80%Z
                  [1%Z; 2%Z; 3%Z] H)).
Defined.

Lemma generated_opening_line_is_noted_unchecked_witness :
  let s := waiting_for_opening_line in
  tasks s !! 1 = Some AwaitFirstResponse /\
  history_of (step demo_world s (Settle 1 (Responded None (Some "endCall"))))
  = history_of s ++ [ {| role := "assistant"; content := None |} ].
Proof.
  intros s.
  assert (tasks s !! 1 = Some AwaitFirstResponse) as H
    by (vm_compute; reflexivity).
  split; [exact H|].
  exact (proj1 (generated_opening_line_is_noted_unchecked demo_world s 1
                  None (Some "endCall") H)).
Defined.

Lemma timer_makes_the_session_ready_witness :
  let s := run demo_world demo_session waiting_for_timer in
  tasks s !! 0 = Some AwaitTimer /\
  listeners (step demo_world s (Settle 0 TimerFired))
  = listeners s ++ [("userMessage", FnOnUserMessage (length (listeners s)))].
Proof.
  intros s.
  assert (tasks s !! 0 = Some AwaitTimer) as H by (vm_compute; reflexivity).
  split; [exact H|].
  exact (proj1 (timer_makes_the_session_ready demo_world s 0 H)).
Defined.

Lemma rejection_ends_the_handler_silently_witness :
  let s := run demo_world demo_session waiting_for_transcript in
  tasks s !! 1 = Some (AwaitTranscribe 20) /\
  AwaitTranscribe 20 <> AwaitTimer /\
  effects (step demo_world s (Settle 1 Rejected))
  = effects s ++ [UnhandledRejection "rejected"].
Proof.
  intros s.
  assert (tasks s !! 1 = Some (AwaitTranscribe 20)) as H
    by (vm_compute; reflexivity).
  assert (AwaitTranscribe 20 <> AwaitTimer) as Hne by discriminate.
  split; [exact H|]. split; [exact Hne|].
  exact (proj1 (rejection_ends_the_handler_silently demo_world s 1
                  (AwaitTranscribe 20) H Hne)).
Defined.

Lemma interrupt_does_not_cancel_the_response_witness :
  let s := run demo_world demo_session waiting_for_response in
  tasks s !! 2 = Some (AwaitResponse 50) /\
  "Hello" <> "" /\
  history_of (run demo_world s [ WsMessage (OtherMsg "INT");
                                 Settle 2 (Responded (Some "Hello") None) ])
  = history_of s ++
      [ {| role := "user"; content := Some "[Interrupted your last message]" |};
        {| role := "assistant"; content := Some "Hello" |} ].
Proof.
  intros s.
  assert (tasks s !! 2 = Some (AwaitResponse 50)) as H
    by (vm_compute; reflexivity).
  assert ("Hello" <> "") as Hne by discriminate.
  split; [exact H|]. split; [exact Hne|].
  exact (proj1 (interrupt_does_not_cancel_the_response
                  demo_world demo_assistant demo_prompt waiting_for_response
                  2 50%Z "Hello" None H Hne)).
Defined.
